(** * stb-tester: [_stbt/logging.py]

    A shallow embedding of the diagnostic logging module: the process-wide
    verbosity level ([_debug_level], [get_debug_level],
    [scoped_debug_level], the [IncreaseDebugLevel] argparse action), the
    text emitters ([debug], [ddebug], [warn]) and the per-frame
    [ImageLogger].

    Python's module and class globals, the error stream and the part of the
    file system the module touches are gathered in one record, [World].
    Every function of the module is a computation over that record which
    either returns or raises; the state reached when an exception is raised
    is kept, as in Python. *)

From Stdlib Require Import ZArith QArith Qabs Qround Qpower Lqa String Ascii List Lia
  DecimalString DecimalPos.
From stdpp Require Import base gmap sets list strings sorting.

Local Open Scope string_scope.
Local Open Scope Z_scope.

(** ** Python-level helpers the module relies on *)

Module Py.

(** Values that can travel in a [**kwargs] dictionary. *)
Inductive value : Type :=
| VNone
| VBool (b : bool)
| VInt (n : Z)
| VStr (s : string).

(** Exceptions that the module raises or lets through. *)
Inductive exn : Type :=
| ConfigurationError
| OSError
| ValueError (msg : string)
| AttributeError (attr : string)
| OtherError (tag : string).

Inductive outcome (A : Type) : Type :=
| Return (a : A)
| Raise (e : exn).
Arguments Return {A} a.
Arguments Raise {A} e.

Definition is_return {A} (o : outcome A) : bool :=
  match o with Return _ => true | Raise _ => false end.

(** [str.startswith('/')] and [str.endswith('/')]. *)
Definition startswith_slash (s : string) : bool :=
  match s with
  | String c _ => Ascii.eqb c "/"
  | EmptyString => false
  end.

Fixpoint endswith_slash (s : string) : bool :=
  match s with
  | EmptyString => false
  | String c EmptyString => Ascii.eqb c "/"
  | String _ rest => endswith_slash rest
  end.

Fixpoint contains_slash (s : string) : bool :=
  match s with
  | EmptyString => false
  | String c rest => Ascii.eqb c "/" || contains_slash rest
  end.

(** One step of [posixpath.join]: an absolute component discards what came
    before it, a separator is inserted unless the path so far is empty or
    already ends with one. *)
Definition join2 (path b : string) : string :=
  if startswith_slash b then b
  else if String.eqb path "" || endswith_slash path then path +:+ b
  else path +:+ "/" +:+ b.

(** [os.path.join(a, *p)] *)
Definition os_path_join (a : string) (p : list string) : string :=
  fold_left join2 p a.

(** [os.path.basename(p)]: what follows the last slash. *)
Fixpoint os_path_basename (p : string) : string :=
  match p with
  | EmptyString => EmptyString
  | String c rest =>
      if contains_slash rest then os_path_basename rest
      else if Ascii.eqb c "/" then rest
      else p
  end.

(** [p.split('/')] *)
Fixpoint split_slash (p : string) : list string :=
  match p with
  | EmptyString => [EmptyString]
  | String c rest =>
      if Ascii.eqb c "/" then EmptyString :: split_slash rest
      else match split_slash rest with
           | h :: t => String c h :: t
           | [] => [String c EmptyString]
           end
  end.

(** ["%d" % n] *)
Definition format_d (n : Z) : string :=
  NilZero.string_of_int (Z.to_int n).

Fixpoint zeros (k : nat) : string :=
  match k with
  | O => EmptyString
  | S k' => String "0" (zeros k')
  end.

(** Left padding of a digit string with zeros up to [width] characters. *)
Definition zfill (width : nat) (digits : string) : string :=
  zeros (width - String.length digits) +:+ digits.

(** ["%05d" % n]: the minimum field width of five counts the sign. *)
Definition format_05d (n : Z) : string :=
  if n <? 0 then "-" +:+ zfill 4 (format_d (- n))
  else zfill 5 (format_d n).

(** [int(s)] on a string of decimal digits with an optional minus sign;
    [None] where Python raises [ValueError]. *)
Definition int_of_str (s : string) : option Z :=
  match s with
  | String "-" rest =>
      option_map (fun u => - Z.of_uint u) (NilEmpty.uint_of_string rest)
  | _ => option_map Z.of_uint (NilEmpty.uint_of_string s)
  end.

(** A path component that is not empty and neither begins nor ends with a
    slash. *)
Definition plain_component (s : string) : bool :=
  negb (String.eqb s "") && negb (startswith_slash s) && negb (endswith_slash s).

(** A name that a directory entry can have. *)
Definition entry_name (s : string) : bool :=
  negb (contains_slash s) &&
  negb (String.eqb s "" || String.eqb s "." || String.eqb s "..").

End Py.
Import Py.

(** ** Images *)

(** numpy sample types an image buffer can have. *)
Inductive dtype : Type :=
| uint8 | int8 | uint16 | int16 | int32 | float16 | float32 | float64.

Definition dtype_eqb (a b : dtype) : bool :=
  match a, b with
  | uint8, uint8 | int8, int8 | uint16, uint16 | int16, int16
  | int32, int32 | float16, float16 | float32, float32
  | float64, float64 => true
  | _, _ => false
  end.


(** A sample of an image buffer: a number (every finite floating-point or
    integer sample is a rational), an infinity or a NaN; the last two occur
    only in floating-point buffers. *)
Inductive sample : Type :=
| Num (q : Q)
| Inf (negative : bool)
| NaN.

(** An image buffer: its sample type and its samples in row-major order. *)
Record Image : Type := mkImage {
  img_dtype : dtype;
  img_samples : list sample
}.

(** Rounding to the nearest integer, ties to the even one. *)
Definition round_half_even (q : Q) : Z :=
  let f := Qfloor q in
  match (2 * (Qnum q - f * Zpos (Qden q))) ?= Zpos (Qden q) with
  | Lt => f
  | Gt => f + 1
  | Eq => if Z.even f then f else f + 1
  end.

(** [floor (log2 q)] of a positive rational. *)
Definition ilog2 (q : Q) : Z :=
  let t := Z.log2 (Qnum q) - Z.log2 (Zpos (Qden q)) in
  if Qle_bool (2 ^ t) q then t else t - 1.

(** The exponent of the last place of a 32-bit float of magnitude [q]: 24
    significant bits, and never below the subnormal spacing [2 ^ (-149)]. *)
Definition float32_ulp_exponent (q : Q) : Z := Z.max (-149) (ilog2 q - 23).

(** The multiple of [2 ^ e] nearest to [q], ties to the even multiple. *)
Definition round_to_grid (e : Z) (q : Q) : Q :=
  inject_Z (round_half_even (q / 2 ^ e)) * 2 ^ e.

(** The magnitude of the 32-bit float nearest to a magnitude [q >= 0]. *)
Definition float32_magnitude (q : Q) : Q :=
  if Qeq_bool q 0 then 0 else round_to_grid (float32_ulp_exponent q) q.

(** IEEE 754 rounding of a real to a 32-bit float, to nearest, ties to
    even: what a single-precision operation returns for the exact result
    [q].  A magnitude that rounds to [2 ^ 128] or more overflows to an
    infinity. *)
Definition round_float32 (q : Q) : sample :=
  let r := float32_magnitude (Qabs q) in
  if Qle_bool (2 ^ 128) r then Inf (negb (Qle_bool 0 q))
  else Num (if Qle_bool 0 q then r else - r).

(** The single-precision product [v * alpha] for a finite, non-zero
    [alpha]. *)
Definition float32_mul (v : sample) (alpha : Q) : sample :=
  match v with
  | Num q => round_float32 (q * alpha)
  | Inf negative => Inf (xorb negative (negb (Qle_bool 0 alpha)))
  | NaN => NaN
  end.

(** [std::abs] on a float. *)
Definition float32_abs (v : sample) : sample :=
  match v with
  | Num q => Num (Qabs q)
  | Inf _ => Inf false
  | NaN => NaN
  end.

Definition INT_MIN : Z := - 2 ^ 31.
Definition INT_MAX : Z := 2 ^ 31 - 1.

(** OpenCV's [cvRound] of a float: the nearest integer, ties to the even
    one.  Where the result has no place in an [int] (too large, an
    infinity, a NaN) the conversion instruction that OpenCV uses on x86
    yields [INT_MIN]. *)
Definition cvRound (v : sample) : Z :=
  match v with
  | Num q =>
      let r := round_half_even q in
      if (INT_MIN <=? r) && (r <=? INT_MAX) then r else INT_MIN
  | _ => INT_MIN
  end.

(** [saturate_cast<uchar>] of an [int]. *)
Definition saturate_uchar (z : Z) : Z := Z.max 0 (Z.min 255 z).

(** One sample of [cv2.convertScaleAbs] on a 32-bit float buffer with the
    default [beta = 0], as OpenCV computes it,
    [dst = saturate_cast<uchar>(|src * alpha + beta|)]: the product is
    taken in single precision (adding a shift of zero changes nothing), its
    absolute value is rounded to an [int] and saturated to unsigned 8
    bit. *)
Definition scale_abs_sample (alpha : Q) (v : sample) : Z :=
  saturate_uchar (cvRound (float32_abs (float32_mul v alpha))).

(** [cv2.convertScaleAbs(src, alpha=...)] on a 32-bit float buffer: the
    result is always an 8-bit image of the same size. *)
Definition convertScaleAbs (src : Image) (alpha : Q) : Image :=
  mkImage uint8
          (map (fun v => Num (inject_Z (scale_abs_sample alpha v))) (img_samples src)).

(** [img.copy()] *)
Definition copy (img : Image) : Image :=
  mkImage (img_dtype img) (img_samples img).

(** ** The file system *)

(** A place in the file system: whether it is reckoned from the root
    ([true]) or from the working directory ([false]), and the names that
    lead to it, outermost first.  [".."] occurs only at the front of a
    place reckoned from the working directory and stands for the
    directories above that one.  Names are compared as they are spelled,
    and there are no symbolic links. *)
Abbreviation location := (bool * list string)%type.

(** The place that one more path component leads to: an empty component
    and ["."] lead nowhere else, [".."] leads one directory up (the root
    is its own parent), a name leads to the entry of that name. *)
Definition descend (l : location) (c : string) : location :=
  if String.eqb c "" || String.eqb c "." then l
  else if String.eqb c ".." then
    match rev (snd l) with
    | [] => if fst l then l else (false, [".."])
    | x :: above =>
        if String.eqb x ".." then (fst l, (snd l ++ [".."])%list)
        else (fst l, rev above)
    end
  else (fst l, (snd l ++ [c])%list).

(** Where a path starts: at the root when it begins with a slash. *)
Definition starting_point (p : string) : location := (startswith_slash p, []).

(** The place a path names. *)
Definition destination (p : string) : location :=
  fold_left descend (split_slash p) (starting_point p).

(** The places that the components lead through, one after the other. *)
Fixpoint passed (l : location) (components : list string) : list location :=
  match components with
  | [] => []
  | c :: rest => descend l c :: passed (descend l c) rest
  end.

(** ** The world: module globals, class attributes, error stream, files *)

Record World : Type := mkWorld {
  (** [_debug_level]; [None] is Python's [None], the level not yet resolved *)
  _debug_level : option Z;
  (** [ImageLogger._frame_number] *)
  _frame_number : Z;
  (** strings passed to [sys.stderr.write], oldest first *)
  stderr : list string;
  (** the directories that exist; the root, the working directory and the
      directories above it exist without being listed *)
  directories : gset location;
  (** the image files that exist, each with the image that was last handed
      to the encoder for it *)
  files : gmap location Image;
  (** [sys.argv[0]] *)
  argv0 : string;
  (** what [get_config('global', 'verbose', type_=int)] yields; [None] when
      the lookup fails *)
  config_verbose : option Z;
  (** whether the file system lets [mkdir_p] create the directory of the
      given path *)
  mkdir_p_ok : string -> bool;
  (** whether the file system lets a file be written at the given place,
      its directory being there (permissions, free space) *)
  imwrite_ok : location -> bool
}.

Definition set_debug_level (l : option Z) (w : World) : World :=
  mkWorld l (_frame_number w) (stderr w) (directories w) (files w)
          (argv0 w) (config_verbose w) (mkdir_p_ok w) (imwrite_ok w).

(** The configuration file is edited behind the process's back. *)
Definition set_config_verbose (c : option Z) (w : World) : World :=
  mkWorld (_debug_level w) (_frame_number w) (stderr w) (directories w) (files w)
          (argv0 w) c (mkdir_p_ok w) (imwrite_ok w).

Definition set_class_frame_number (n : Z) (w : World) : World :=
  mkWorld (_debug_level w) n (stderr w) (directories w) (files w)
          (argv0 w) (config_verbose w) (mkdir_p_ok w) (imwrite_ok w).

Definition stderr_write (s : string) (w : World) : World :=
  mkWorld (_debug_level w) (_frame_number w) (stderr w ++ [s]) (directories w)
          (files w) (argv0 w) (config_verbose w) (mkdir_p_ok w) (imwrite_ok w).

(** The directory of path [d] comes to exist, and with it every directory
    that the path leads through; those that were there already stay as
    they are. *)
Definition add_directory (d : string) (w : World) : World :=
  mkWorld (_debug_level w) (_frame_number w) (stderr w)
          (list_to_set (passed (starting_point d) (split_slash d)) ∪ directories w)
          (files w) (argv0 w) (config_verbose w) (mkdir_p_ok w) (imwrite_ok w).

(** The file at [place] comes to hold [img], replacing what it held. *)
Definition write_file (place : location) (img : Image) (w : World) : World :=
  mkWorld (_debug_level w) (_frame_number w) (stderr w) (directories w)
          (<[place := img]> (files w)) (argv0 w) (config_verbose w)
          (mkdir_p_ok w) (imwrite_ok w).

(** Whether a place is a directory. *)
Definition is_directory (w : World) (l : location) : bool :=
  forallb (String.eqb "..") (snd l) || bool_decide (l ∈ directories w).

(** Following the components of a path from a place: each component is
    looked up in the place reached so far, which has to be a directory. *)
Fixpoint walk (w : World) (l : location) (components : list string)
  : option location :=
  match components with
  | [] => Some l
  | c :: rest => if is_directory w l then walk w (descend l c) rest else None
  end.

(** The place that a path names, when the directories it leads through
    exist; the place itself need not. *)
Definition resolve (w : World) (p : string) : option location :=
  walk w (starting_point p) (split_slash p).

(** ** Computations that may raise *)

Definition M (St A : Type) : Type := St -> outcome A * St.

Definition ret {St A} (a : A) : M St A := fun s => (Return a, s).

Definition raise {St A} (e : exn) : M St A := fun s => (Raise e, s).

Definition bind {St A B} (m : M St A) (k : A -> M St B) : M St B :=
  fun s =>
    match m s with
    | (Return a, s') => k a s'
    | (Raise e, s') => (Raise e, s')
    end.

Definition modify {St} (f : St -> St) : M St unit := fun s => (Return tt, f s).

Definition gets {St A} (f : St -> A) : M St A := fun s => (Return (f s), s).

(** [try: m finally: s := h s] *)
Definition try_finally {St A} (m : M St A) (h : St -> St) : M St A :=
  fun s => let '(r, s') := m s in (r, h s').

Declare Scope py_scope.
Delimit Scope py_scope with py.
Notation "x <- m ;; k" := (bind m (fun x => k))
  (at level 100, m at next level, right associativity) : py_scope.
Notation "m ;;; k" := (bind m (fun _ => k))
  (at level 100, right associativity) : py_scope.
Local Open Scope py_scope.

(** ** External collaborators *)

(** Modelled from the spec: [get_config] of [_stbt/config.py], of which the
    module needs the integer under [global.verbose]; a failed lookup is
    fatal and propagates. *)
Definition get_config_global_verbose : M World Z :=
  fun w =>
    match config_verbose w with
    | Some v => (Return v, w)
    | None => (Raise ConfigurationError, w)
    end.

(** Modelled from the spec: [mkdir_p] of [_stbt/utils.py], creation of a
    directory with its parents, which fails with [OSError] when the file
    system refuses and succeeds, changing nothing, when the directory is
    there already.  A refused creation is taken to leave nothing behind. *)
Definition mkdir_p (d : string) : M World unit :=
  fun w =>
    if mkdir_p_ok w d then (Return tt, add_directory d w)
    else (Raise OSError, w).

(** Modelled from the spec: [numpy_from_sample(image, readonly=True)] of
    [_stbt/gst_utils.py], a read-only view of the image buffer. *)
Definition numpy_from_sample (image : Image) : Image := image.

(** [cv2.imwrite(path, img)] for a path that ends in [.png] and an image
    that OpenCV can encode, as the frames and heat maps are that the
    callers of this module log: when the directories that [path] leads
    through exist, [path] does not name a directory and the file system
    accepts the write, the file holds [img] afterwards, whatever it held
    before, and the call returns [True] (how the encoder lays the image
    out is OpenCV's business); otherwise nothing is written and the call
    returns [False], without raising. *)
Definition cv2_imwrite (path : string) (img : Image) : M World bool :=
  fun w =>
    match resolve w path with
    | Some place =>
        if negb (is_directory w place) && imwrite_ok w place
        then (Return true, write_file place img w)
        else (Return false, w)
    | None => (Return false, w)
    end.

(** ** The verbosity level and the text emitters *)

Definition get_debug_level : M World Z :=
  fun w =>
    match _debug_level w with
    | None =>
        (v <- get_config_global_verbose ;;
         modify (set_debug_level (Some v)) ;;;
         ret v) w
    | Some l => (Return l, w)
    end.

(** [os.path.basename(sys.argv[0])] *)
Definition program_name (w : World) : string := os_path_basename (argv0 w).

Definition newline : string := String (ascii_of_nat 10) EmptyString.

Definition debug (msg : string) : M World unit :=
  l <- get_debug_level ;;
  if 0 <? l then
    fun w => modify (stderr_write (program_name w +:+ ": " +:+ msg +:+ newline)) w
  else ret tt.

Definition ddebug (s : string) : M World unit :=
  l <- get_debug_level ;;
  if 1 <? l then
    fun w => modify (stderr_write (program_name w +:+ ": " +:+ s +:+ newline)) w
  else ret tt.

Definition warn (s : string) : M World unit :=
  fun w => modify (stderr_write (program_name w +:+ ": warning: " +:+ s +:+ newline)) w.

(** [with scoped_debug_level(level): body] *)
Definition scoped_debug_level {A} (level : Z) (body : M World A) : M World A :=
  fun w =>
    let oldlevel := _debug_level w in
    try_finally body (set_debug_level oldlevel) (set_debug_level (Some level) w).

(** Scopes entered one inside the other, the first of [levels] outermost. *)
Fixpoint nested_scopes {A} (levels : list Z) (body : M World A) : M World A :=
  match levels with
  | [] => body
  | l :: ls => scoped_debug_level l (nested_scopes ls body)
  end.

(** The message of the module's self-test. *)
Definition test_message : string := "Prüfungs Debug-Unicode".

(** The inner [test(level)] of [test_that_debug_can_write_unicode_strings]. *)
Definition test (level : Z) : M World unit :=
  scoped_debug_level level
    (warn test_message ;;;
     debug test_message ;;;
     ddebug test_message).

(** A sequence of computations run one after the other, stopping at the
    first that raises. *)
Fixpoint run_all (ms : list (M World unit)) : M World unit :=
  match ms with
  | [] => ret tt
  | m :: rest => m ;;; run_all rest
  end.

(** [test_that_debug_can_write_unicode_strings]: the cases the generator
    yields, [(test, level)] for the levels 0, 1 and 2. *)
Definition test_that_debug_can_write_unicode_strings : list (M World unit) :=
  map test [0; 1; 2].

(** ** The [-v] argparse action *)

Module IncreaseDebugLevel.

(** An instance of the action.  [num_calls] is read through the instance:
    the class attribute [0] until the first call stores an instance
    attribute. *)
Record t : Type := mk {
  num_calls : Z;
  dest : string;
  default : Z
}.

(** The namespace that argparse fills in. *)
Abbreviation namespace := (gmap string Z).

(** [IncreaseDebugLevel.__call__] *)
Definition __call__ (self : t) (ns : namespace) (w : World)
  : t * namespace * World :=
  let self' := mk (num_calls self + 1) (dest self) (default self) in
  let w' := set_debug_level (Some (num_calls self')) w in
  (self', <[dest self' := num_calls self']> ns, w').

(** [n] occurrences of the flag on one command line. *)
Fixpoint calls (n : nat) (self : t) (ns : namespace) (w : World)
  : t * namespace * World :=
  match n with
  | O => (self, ns, w)
  | S n' => let '(self', ns', w') := __call__ self ns w in calls n' self' ns' w'
  end.

End IncreaseDebugLevel.

(** [argparser_add_verbose_argument]: registers a fresh action whose default
    is the level at registration time. *)
Definition argparser_add_verbose_argument : M World IncreaseDebugLevel.t :=
  d <- get_debug_level ;;
  ret (IncreaseDebugLevel.mk 0 "verbose" d).

(** One run of the parser over a command line with [n] occurrences of the
    flag: the namespace starts from the default. *)
Definition parse_args (action : IncreaseDebugLevel.t) (n : nat) (w : World)
  : IncreaseDebugLevel.t * IncreaseDebugLevel.namespace * World :=
  IncreaseDebugLevel.calls n action
    {[ IncreaseDebugLevel.dest action := IncreaseDebugLevel.default action ]} w.

(** ** [ImageLogger] *)

Module ImageLogger.

(** An instance.  Apart from [enabled], an attribute exists only once
    [__init__] has assigned it. *)
Record t : Type := mk {
  enabled : bool;
  name : option string;
  frame_number : option Z;
  outdir : option string;
  images : option (list (string * Image));
  pyramid_levels : option (gset Z);
  data : option (gmap string value)
}.

(** The object before [__init__] has run. *)
Definition blank : t := mk false None None None None None None.

Definition set_enabled (b : bool) (s : t) : t :=
  mk b (name s) (frame_number s) (outdir s) (images s) (pyramid_levels s) (data s).
Definition set_name (n : string) (s : t) : t :=
  mk (enabled s) (Some n) (frame_number s) (outdir s) (images s) (pyramid_levels s) (data s).
Definition set_frame_number (n : Z) (s : t) : t :=
  mk (enabled s) (name s) (Some n) (outdir s) (images s) (pyramid_levels s) (data s).
Definition set_outdir (d : string) (s : t) : t :=
  mk (enabled s) (name s) (frame_number s) (Some d) (images s) (pyramid_levels s) (data s).
Definition set_images (i : list (string * Image)) (s : t) : t :=
  mk (enabled s) (name s) (frame_number s) (outdir s) (Some i) (pyramid_levels s) (data s).
Definition set_pyramid_levels (p : gset Z) (s : t) : t :=
  mk (enabled s) (name s) (frame_number s) (outdir s) (images s) (Some p) (data s).
Definition set_data (d : gmap string value) (s : t) : t :=
  mk (enabled s) (name s) (frame_number s) (outdir s) (images s) (pyramid_levels s) (Some d).

(** A method runs on the instance and the world together. *)
Abbreviation Obj := (t * World)%type.

Definition lift {A} (m : M World A) : M Obj A :=
  fun '(self, w) => let '(r, w') := m w in (r, (self, w')).

Definition update (f : t -> t) : M Obj unit :=
  modify (fun '(self, w) => (f self, w)).

(** Reading an attribute that was never assigned raises. *)
Definition getattr {A} (field : t -> option A) (attr : string) : M Obj A :=
  fun '(self, w) =>
    match field self with
    | Some a => (Return a, (self, w))
    | None => (Raise (AttributeError attr), (self, w))
    end.

(** [try: m except OSError: h] *)
Definition try_except_OSError {St A} (m h : M St A) : M St A :=
  fun s =>
    match m s with
    | (Raise OSError, s') => h s'
    | r => r
    end.

(** [name in d] and [d[name] = img] on an [OrderedDict]. *)
Definition odict_contains {V} (d : list (string * V)) (k : string) : bool :=
  existsb (fun kv => String.eqb (fst kv) k) d.

Fixpoint odict_set {V} (d : list (string * V)) (k : string) (v : V)
  : list (string * V) :=
  match d with
  | [] => [(k, v)]
  | (k', v') :: rest =>
      if String.eqb k' k then (k', v) :: rest
      else (k', v') :: odict_set rest k v
  end.

(** [self.data[k] = v] *)
Definition data_setitem (kv : string * value) : M Obj unit :=
  d <- getattr data "data" ;;
  update (set_data (<[fst kv := snd kv]> d)).

(** [for k, v in kwargs.iteritems(): self.data[k] = v] *)
Fixpoint store_kwargs (kwargs : list (string * value)) : M Obj unit :=
  match kwargs with
  | [] => ret tt
  | kv :: rest => data_setitem kv ;;; store_kwargs rest
  end.

Definition failed_directory_warning (outdir : string) : string :=
  "Failed to create directory '" +:+ outdir +:+ "'; won't save debug images.".

(** The body of [__init__], run on the new object. *)
Definition init_body (nm : string) (kwargs : list (string * value)) : M Obj unit :=
  l <- lift get_debug_level ;;
  update (set_enabled (1 <? l)) ;;;
  en <- gets (fun s : Obj => enabled (fst s)) ;;
  if negb en then ret tt
  else
    update (set_name nm) ;;;
    n <- lift (gets _frame_number) ;;
    update (set_frame_number n) ;;;
    c <- lift (gets _frame_number) ;;
    lift (modify (set_class_frame_number (c + 1))) ;;;
    let dir := os_path_join "stbt-debug" [nm; format_05d n] in
    made <- try_except_OSError
              (lift (mkdir_p dir) ;;;
               update (set_outdir dir) ;;;
               ret true)
              (lift (warn (failed_directory_warning dir)) ;;;
               update (set_enabled false) ;;;
               ret false) ;;
    if negb made then ret tt
    else
      update (set_images []) ;;;
      update (set_pyramid_levels ∅) ;;;
      update (set_data ∅) ;;;
      store_kwargs kwargs.

(** [ImageLogger(name, **kwargs)]: the caller gets the object only when
    [__init__] returns. *)
Definition __init__ (nm : string) (kwargs : list (string * value)) : M World t :=
  fun w =>
    match init_body nm kwargs (blank, w) with
    | (Return _, (self, w')) => (Return self, w')
    | (Raise e, (_, w')) => (Raise e, w')
    end.

(** [ImageLogger.set] *)
Definition set (kwargs : list (string * value)) : M Obj unit :=
  en <- gets (fun s : Obj => enabled (fst s)) ;;
  if negb en then ret tt
  else store_kwargs kwargs.

Definition duplicate_message (nm : string) : string :=
  "Image for name '" +:+ nm +:+ "' already logged".

(** The name under which an image is kept. *)
Definition stored_name (nm : string) (pyramid_level : option Z) : string :=
  match pyramid_level with
  | Some pl => "level" +:+ format_d pl +:+ "-" +:+ nm
  | None => nm
  end.

(** [ImageLogger.imwrite] *)
Definition imwrite (nm : string) (image : Image) (pyramid_level : option Z)
  : M Obj unit :=
  en <- gets (fun s : Obj => enabled (fst s)) ;;
  if negb en then ret tt
  else
    let nm' := stored_name nm pyramid_level in
    match pyramid_level with
    | Some pl =>
        ps <- getattr pyramid_levels "pyramid_levels" ;;
        update (set_pyramid_levels ({[pl]} ∪ ps))
    | None => ret tt
    end ;;;
    imgs <- getattr images "images" ;;
    if odict_contains imgs nm' then raise (ValueError (duplicate_message nm'))
    else
      let img := numpy_from_sample image in
      let img :=
        if dtype_eqb (img_dtype img) float32
        then convertScaleAbs image 255
        else copy img in
      imgs <- getattr images "images" ;;
      update (set_images (odict_set imgs nm' img)) ;;;
      dir <- getattr outdir "outdir" ;;
      lift (cv2_imwrite (os_path_join dir [nm' +:+ ".png"]) img) ;;;
      ret tt.

(** What [imwrite] keeps and writes for [image]. *)
Definition persisted (image : Image) : Image :=
  if dtype_eqb (img_dtype (numpy_from_sample image)) float32
  then convertScaleAbs image 255
  else copy (numpy_from_sample image).

(** The instance once [imwrite] has noted the pyramid level. *)
Definition note_level (pyramid_level : option Z) (s : t) : t :=
  match pyramid_level, pyramid_levels s with
  | Some pl, Some ps => set_pyramid_levels ({[pl]} ∪ ps) s
  | _, _ => s
  end.

(** An instance on which [__init__] ran to its end: enabled, with all its
    attributes assigned. *)
Definition ready (s : t) : bool :=
  match enabled s, outdir s, images s, pyramid_levels s, data s with
  | true, Some _, Some _, Some _, Some _ => true
  | _, _, _, _, _ => false
  end.

(** [name in self.images], on an instance that has the attribute. *)
Definition has_image (s : t) (k : string) : bool :=
  match images s with
  | Some imgs => odict_contains imgs k
  | None => false
  end.

(** The calls a client makes on one instance. *)
Inductive call : Type :=
| Set_ (kwargs : list (string * value))
| Imwrite (nm : string) (image : Image) (pyramid_level : option Z).

Definition run_call (c : call) : M Obj unit :=
  match c with
  | Set_ kwargs => set kwargs
  | Imwrite nm image pl => imwrite nm image pl
  end.

(** A series of calls, each of whose exceptions the client catches; the
    outcomes are listed in call order. *)
Fixpoint run_calls (cs : list call) (s : Obj) : list (outcome unit) * Obj :=
  match cs with
  | [] => ([], s)
  | c :: rest =>
      let '(r, s') := run_call c s in
      let '(rs, s'') := run_calls rest s' in
      (r :: rs, s'')
  end.

End ImageLogger.

(** ** A process that creates and uses several loggers *)

Module Process.

(** What a client does, one step at a time.  [Assign] stands for any
    assignment to [_debug_level]: entering or leaving a scoped override, or
    a call of the [-v] action. *)
Inductive step : Type :=
| Create (nm : string) (kwargs : list (string * value))
| CallOn (i : nat) (c : ImageLogger.call)
| Assign (l : option Z)
| Debug (msg : string).

(** The world and the loggers created so far, in creation order. *)
Record t : Type := mk {
  world : World;
  loggers : list ImageLogger.t
}.

Definition start (w : World) : t := mk w [].

(** One step; an exception is caught by the client, the state it left
    behind stays. *)
Definition run_step (p : t) (s : step) : t :=
  match s with
  | Create nm kwargs =>
      match ImageLogger.__init__ nm kwargs (world p) with
      | (Return self, w') => mk w' (loggers p ++ [self])
      | (Raise _, w') => mk w' (loggers p)
      end
  | CallOn i c =>
      match loggers p !! i with
      | Some self =>
          let '(_, (self', w')) := ImageLogger.run_call c (self, world p) in
          mk w' (<[i := self']> (loggers p))
      | None => p
      end
  | Assign l => mk (set_debug_level l (world p)) (loggers p)
  | Debug msg => mk (snd (debug msg (world p))) (loggers p)
  end.

Definition run (steps : list step) (p : t) : t := fold_left run_step steps p.

(** The sequence numbers handed out, in creation order. *)
Definition sequence_numbers (p : t) : list Z :=
  omap ImageLogger.frame_number (loggers p).

(** An enabled logger has its directory on the file system. *)
Definition housed (w : World) (s : ImageLogger.t) : Prop :=
  ImageLogger.enabled s = true ->
  exists dir : string,
    ImageLogger.outdir s = Some dir /\
    resolve w dir = Some (destination dir) /\
    is_directory w (destination dir) = true.

(** An enabled logger sits in the directory made of its name and its
    sequence number. *)
Definition placed (s : ImageLogger.t) : Prop :=
  ImageLogger.enabled s = true ->
  exists (nm : string) (n : Z),
    ImageLogger.name s = Some nm /\
    ImageLogger.frame_number s = Some n /\
    ImageLogger.outdir s = Some (os_path_join "stbt-debug" [nm; format_05d n]).

(** The numbers handed out so far are in increasing order and all below the
    class counter. *)
Definition numbers_in_order (p : t) : Prop :=
  StronglySorted Z.lt (sequence_numbers p) /\
  Forall (fun n => n < _frame_number (world p)) (sequence_numbers p).

End Process.

(** ** Sample inputs *)

Module Sample.

(** A process started as [/usr/bin/stbt-run] whose configuration says
    [verbose = 1], before anything has read the level. *)
Definition fresh_world : World :=
  mkWorld None 1 [] ∅ ∅ "/usr/bin/stbt-run" (Some 1) (fun _ => true)
          (fun _ => true).

(** The same process with the level at 2 and six loggers already made. *)
Definition verbose_world : World :=
  mkWorld (Some 2) 7 [] ∅ ∅ "/usr/bin/stbt-run" (Some 1) (fun _ => true)
          (fun _ => true).



(** A body that changes the level and then fails. *)
Definition failing_body : M World unit :=
  fun w => (Raise (OtherError "boom"), set_debug_level (Some 9) w).

(** A [cv2.matchTemplate] heat map and the same samples as doubles. *)
Definition heatmap : Image := mkImage float32 [Num 0; Num (1 # 2); Num 1].
Definition frame : Image := mkImage uint8 [Num 12; Num 200; Num 255].

(** An enabled logger as [ImageLogger("match")] leaves it in
    [verbose_world]. *)
Definition match_logger : ImageLogger.t :=
  ImageLogger.mk true (Some "match") (Some 7) (Some "stbt-debug/match/00007")
                 (Some []) (Some ∅) (Some ∅).

End Sample.

(** * Properties *)

(** ** Basic facts about the model *)

Ltac run_py :=
  cbv beta delta [bind ret raise modify gets try_finally
                  ImageLogger.lift ImageLogger.update ImageLogger.getattr
                  ImageLogger.try_except_OSError] iota; cbn [fst snd].

Lemma set_debug_level_same (w : World) (l : Z) :
  _debug_level w = Some l -> set_debug_level (Some l) w = w.
Proof. destruct w; cbn; intros ->; reflexivity. Qed.

(** [get_debug_level] returns the level already set, or resolves and caches
    the configured one. *)
Lemma get_debug_level_spec (w w1 : World) (l : Z) :
  get_debug_level w = (Return l, w1) ->
  w1 = set_debug_level (Some l) w /\
  (_debug_level w = Some l \/
   _debug_level w = None /\ config_verbose w = Some l).
Proof.
  unfold get_debug_level, get_config_global_verbose.
  destruct (_debug_level w) as [l0|] eqn:E.
  - intros [= <- <-]. split; [symmetry; now apply set_debug_level_same | now left].
  - run_py. destruct (config_verbose w) as [v|] eqn:C; [|discriminate].
    intros [= <- <-]. split; [reflexivity | now right].
Qed.

Lemma get_debug_level_cached (w : World) (l : Z) :
  _debug_level w = Some l -> get_debug_level w = (Return l, w).
Proof. unfold get_debug_level. intros ->. reflexivity. Qed.

Lemma get_debug_level_raise (w w1 : World) (e : exn) :
  get_debug_level w = (Raise e, w1) -> e = ConfigurationError /\ w1 = w.
Proof.
  unfold get_debug_level, get_config_global_verbose.
  destruct (_debug_level w); [discriminate|].
  run_py. destruct (config_verbose w); [discriminate|].
  intros [= <- <-]. auto.
Qed.

(** ** Scoped overrides *)

Lemma scoped_debug_level_level {A} (level : Z) (body : M World A) (w : World) :
  _debug_level (snd (scoped_debug_level level body w)) = _debug_level w.
Proof.
  unfold scoped_debug_level, try_finally.
  destruct (body _) as [r w']. reflexivity.
Qed.

Lemma scoped_debug_level_outcome {A} (level : Z) (body : M World A) (w : World) :
  fst (scoped_debug_level level body w) =
  fst (body (set_debug_level (Some level) w)).
Proof.
  unfold scoped_debug_level, try_finally.
  destruct (body _) as [r w']. reflexivity.
Qed.

(** C1: whatever the body of the outermost [with scoped_debug_level(...)]
    does, including entering further scopes and raising, the variable
    [_debug_level] has on exit the value it had on entry; a level observed
    through [get_debug_level] just before the scope is observed again just
    after it; and the scope itself lets the body's outcome (its value or
    its exception) through. *)
Theorem scoped_debug_level_restores :
  forall (A : Type) (outer : Z) (inner : list Z) (body : M World A) (w : World),
    _debug_level (snd (nested_scopes (outer :: inner) body w)) = _debug_level w /\
    (forall (l : Z) (w1 : World),
        get_debug_level w = (Return l, w1) ->
        get_debug_level (snd (nested_scopes (outer :: inner) body w1)) =
        (Return l, snd (nested_scopes (outer :: inner) body w1))) /\
    fst (scoped_debug_level outer body w) =
    fst (body (set_debug_level (Some outer) w)).
Proof.
  intros A outer inner body w. cbn [nested_scopes].
  split; [apply scoped_debug_level_level|].
  split; [|apply scoped_debug_level_outcome].
  intros l w1 H. apply get_debug_level_cached.
  rewrite scoped_debug_level_level.
  apply get_debug_level_spec in H as [-> _]. reflexivity.
Qed.

Lemma scoped_debug_level_restores_witness :
  _debug_level (snd (nested_scopes [2; 0] Sample.failing_body Sample.fresh_world)) = None /\
  fst (get_debug_level
         (snd (nested_scopes [2; 0] Sample.failing_body
                 (set_debug_level (Some 1) Sample.fresh_world)))) = Return 1.
Proof.
  destruct (scoped_debug_level_restores unit 2 [0] Sample.failing_body
              Sample.fresh_world) as [H1 [H2 _]].
  split; [exact H1|].
  rewrite (H2 1 (set_debug_level (Some 1) Sample.fresh_world)); reflexivity.
Defined.

(** ** The text emitters *)



(** ** The [-v] action *)

Lemma call_spec (self : IncreaseDebugLevel.t) (ns : IncreaseDebugLevel.namespace)
      (w : World) :
  let '(self', ns', w') := IncreaseDebugLevel.__call__ self ns w in
  IncreaseDebugLevel.num_calls self' = IncreaseDebugLevel.num_calls self + 1 /\
  IncreaseDebugLevel.dest self' = IncreaseDebugLevel.dest self /\
  _debug_level w' = Some (IncreaseDebugLevel.num_calls self') /\
  ns' !! IncreaseDebugLevel.dest self = Some (IncreaseDebugLevel.num_calls self').
Proof.
  unfold IncreaseDebugLevel.__call__. cbn.
  repeat split. apply lookup_insert_eq.
Qed.

Lemma calls_spec (n : nat) :
  forall (self : IncreaseDebugLevel.t) (ns : IncreaseDebugLevel.namespace)
         (w : World),
    let '(self', ns', w') := IncreaseDebugLevel.calls (S n) self ns w in
    IncreaseDebugLevel.num_calls self' =
      IncreaseDebugLevel.num_calls self + Z.of_nat (S n) /\
    _debug_level w' = Some (IncreaseDebugLevel.num_calls self') /\
    ns' !! IncreaseDebugLevel.dest self = Some (IncreaseDebugLevel.num_calls self').
Proof.
  induction n as [|n IH]; intros self ns w.
  - cbn [IncreaseDebugLevel.calls].
    pose proof (call_spec self ns w) as H.
    destruct (IncreaseDebugLevel.__call__ self ns w) as [[self' ns'] w'].
    destruct H as (H1 & _ & H2 & H3). repeat split; auto; lia.
  - change (IncreaseDebugLevel.calls (S (S n)) self ns w)
      with (let '(self', ns', w') := IncreaseDebugLevel.__call__ self ns w in
            IncreaseDebugLevel.calls (S n) self' ns' w').
    pose proof (call_spec self ns w) as H.
    destruct (IncreaseDebugLevel.__call__ self ns w) as [[self1 ns1] w1].
    destruct H as (H1 & Hd & _ & _).
    specialize (IH self1 ns1 w1).
    destruct (IncreaseDebugLevel.calls (S n) self1 ns1 w1) as [[self' ns'] w'].
    destruct IH as (I1 & I2 & I3). rewrite Hd in I3.
    repeat split; auto; lia.
Qed.

(** C7, as the code has it: once the action is registered, each call adds
    one to the action's counter and sets the global level to the counter's
    new value, so that after [n >= 1] calls in the parse that follows the
    level, the counter and the namespace entry all equal [n]. *)
Theorem increase_debug_level_counts_calls :
  forall (n : nat) (w w1 : World) (action : IncreaseDebugLevel.t),
    argparser_add_verbose_argument w = (Return action, w1) ->
    (1 <= n)%nat ->
    (forall self ns w0,
        let '(self', _, w') := IncreaseDebugLevel.__call__ self ns w0 in
        IncreaseDebugLevel.num_calls self' = IncreaseDebugLevel.num_calls self + 1 /\
        _debug_level w' = Some (IncreaseDebugLevel.num_calls self')) /\
    let '(action', ns, w') := parse_args action n w1 in
    IncreaseDebugLevel.num_calls action' = Z.of_nat n /\
    _debug_level w' = Some (Z.of_nat n) /\
    ns !! "verbose" = Some (Z.of_nat n).
Proof.
  intros n w w1 action Hreg Hn. split.
  - intros self ns w0. pose proof (call_spec self ns w0) as H.
    destruct (IncreaseDebugLevel.__call__ self ns w0) as [[self' ns'] w'].
    destruct H as (H1 & _ & H2 & _). auto.
  - assert (Ha : IncreaseDebugLevel.num_calls action = 0 /\
                 IncreaseDebugLevel.dest action = "verbose").
    { unfold argparser_add_verbose_argument, bind, ret in Hreg.
      destruct (get_debug_level w) as [[d|e] w2]; [|discriminate].
      injection Hreg as <- _. auto. }
    destruct Ha as [Hc Hd].
    destruct n as [|n]; [lia|].
    unfold parse_args.
    pose proof (calls_spec n action
                  {[IncreaseDebugLevel.dest action :=
                      IncreaseDebugLevel.default action]} w1) as H.
    destruct (IncreaseDebugLevel.calls (S n) action _ w1) as [[action' ns] w'].
    destruct H as (H1 & H2 & H3).
    rewrite Hc in H1. rewrite Hd in H3. rewrite H2, H3, H1.
    repeat split; f_equal; lia.
Qed.

Lemma increase_debug_level_counts_calls_witness :
  let '(action', ns, w') :=
    parse_args (IncreaseDebugLevel.mk 0 "verbose" 1) 2
               (set_debug_level (Some 1) Sample.fresh_world) in
  IncreaseDebugLevel.num_calls action' = 2 /\
  _debug_level w' = Some 2 /\
  ns !! "verbose" = Some 2.
Proof.
  apply (increase_debug_level_counts_calls 2 Sample.fresh_world
           (set_debug_level (Some 1) Sample.fresh_world)
           (IncreaseDebugLevel.mk 0 "verbose" 1)).
  - reflexivity.
  - lia.
Defined.

(** C7, as the claim has it, fails when the flag is absent: with
    [verbose = 1] in the configuration and no call of the action, the level
    after the parse is 1, not 0.  It also fails in a second parse with the
    same parser, where the counter goes on from the first: after a command
    line with two flags, one with a single flag leaves the level at 3. *)
Lemma level_is_number_of_calls_counterexample :
  ~ (forall (n : nat) (w w1 : World) (action : IncreaseDebugLevel.t),
        argparser_add_verbose_argument w = (Return action, w1) ->
        _debug_level (snd (parse_args action n w1)) = Some (Z.of_nat n)) /\
  (let '(action', _, w') :=
     parse_args (IncreaseDebugLevel.mk 0 "verbose" 1) 2
                (set_debug_level (Some 1) Sample.fresh_world) in
   _debug_level (snd (parse_args action' 1 w'))) = Some 3.
Proof.
  split; [|reflexivity].
  intros H.
  specialize (H 0%nat Sample.fresh_world
                (set_debug_level (Some 1) Sample.fresh_world)
                (IncreaseDebugLevel.mk 0 "verbose" 1) eq_refl).
  discriminate H.
Qed.

(** ** The file system *)




Lemma is_directory_ext (w w' : World) (l : location) :
  directories w' = directories w -> is_directory w' l = is_directory w l.
Proof. unfold is_directory. now intros ->. Qed.

Lemma walk_ext (w w' : World) (components : list string) :
  directories w' = directories w ->
  forall l : location, walk w' l components = walk w l components.
Proof.
  intros H. induction components as [|c rest IH]; intros l; [reflexivity|].
  cbn. rewrite (is_directory_ext w w' l H), IH. reflexivity.
Qed.

Lemma is_directory_mono (w w' : World) (l : location) :
  directories w ⊆ directories w' ->
  is_directory w l = true -> is_directory w' l = true.
Proof.
  unfold is_directory. intros Hs [H|H]%orb_true_iff; [now rewrite H|].
  apply bool_decide_eq_true in H.
  rewrite (bool_decide_eq_true_2 _ (Hs _ H)). apply orb_true_r.
Qed.

Lemma walk_mono (w w' : World) (components : list string) :
  directories w ⊆ directories w' ->
  forall l l' : location,
    walk w l components = Some l' -> walk w' l components = Some l'.
Proof.
  intros Hs. induction components as [|c rest IH]; intros l l'; [trivial|].
  cbn. destruct (is_directory w l) eqn:E; [|discriminate].
  rewrite (is_directory_mono w w' l Hs E). apply IH.
Qed.


(** A path whose directories all exist leads to the place it names. *)
Lemma walk_passed (w : World) (components : list string) :
  forall l : location,
    is_directory w l = true ->
    Forall (fun l' => is_directory w l' = true) (passed l components) ->
    walk w l components = Some (fold_left descend components l) /\
    is_directory w (fold_left descend components l) = true.
Proof.
  induction components as [|c rest IH]; intros l Hl Hp; [now split|].
  cbn in *. rewrite Hl. inversion Hp; subst. now apply IH.
Qed.

(** Once [mkdir_p] has made a directory, and for as long as no directory
    is taken away, its path leads to it. *)
Lemma resolve_made (d : string) (w w' : World) :
  directories (add_directory d w) ⊆ directories w' ->
  resolve w' d = Some (destination d) /\
  is_directory w' (destination d) = true.
Proof.
  intros Hs. apply walk_passed; [reflexivity|].
  apply Forall_forall. intros l Hl. unfold is_directory.
  rewrite (bool_decide_eq_true_2 (l ∈ directories w')); [apply orb_true_r|].
  apply Hs. cbn. apply elem_of_union_l, elem_of_list_to_set. exact Hl.
Qed.

(** ** [ImageLogger]: how the methods run *)

Section ImageLoggerFacts.

Import ImageLogger.

Lemma set_data_same (s : t) (d : gmap string value) :
  data s = Some d -> set_data d s = s.
Proof. destruct s; cbn; intros ->; reflexivity. Qed.

Lemma store_kwargs_ok (kwargs : list (string * value)) :
  forall (s : t) (w : World) (d : gmap string value),
    data s = Some d ->
    store_kwargs kwargs (s, w) =
    (Return tt,
     (set_data (fold_left (fun m kv => <[fst kv := snd kv]> m) kwargs d) s, w)).
Proof.
  induction kwargs as [|kv rest IH]; intros s w d Hd.
  - cbn. now rewrite set_data_same.
  - cbn [store_kwargs fold_left]. unfold data_setitem. run_py.
    rewrite Hd. rewrite (IH _ w (<[fst kv := snd kv]> d)) by reflexivity.
    destruct s; reflexivity.
Qed.

(** A disabled instance ignores every call. *)
Lemma disabled_call_noop (c : call) (s : t) (w : World) :
  enabled s = false -> run_call c (s, w) = (Return tt, (s, w)).
Proof.
  intros H. destruct c; unfold run_call, set, imwrite; run_py;
    rewrite H; reflexivity.
Qed.

Lemma disabled_calls_noop (cs : list call) (s : t) (w : World) :
  enabled s = false ->
  run_calls cs (s, w) = (map (fun _ => Return tt) cs, (s, w)).
Proof.
  intros H. induction cs as [|c cs IH]; [reflexivity|].
  cbn [run_calls map]. rewrite disabled_call_noop by assumption.
  rewrite IH. reflexivity.
Qed.

Lemma ready_inv (s : t) :
  ready s = true ->
  exists nm fn dir imgs ps d,
    s = mk true nm fn (Some dir) (Some imgs) (Some ps) (Some d).
Proof.
  destruct s as [[] nm fn [dir|] [imgs|] [ps|] [d|]]; cbn; try discriminate.
  intros _. now exists nm, fn, dir, imgs, ps, d.
Qed.

(** [cv2.imwrite] always returns, with [True] or [False]. *)
Lemma cv2_imwrite_returns (path : string) (img : Image) (w : World) :
  exists b : bool,
    cv2_imwrite path img w = (Return b, snd (cv2_imwrite path img w)).
Proof.
  unfold cv2_imwrite.
  destruct (resolve w path); [destruct (_ && _)|]; eexists; reflexivity.
Qed.

(** [imwrite] on a ready instance: the level is noted, then either the name
    is taken and [ValueError] is raised, or the image is kept and handed to
    [cv2.imwrite], whose answer is dropped. *)
Lemma imwrite_ready (s : t) (w : World) (nm : string) (image : Image)
      (pl : option Z) (dir : string) (imgs : list (string * Image)) :
  ready s = true -> outdir s = Some dir -> images s = Some imgs ->
  imwrite nm image pl (s, w) =
  if odict_contains imgs (stored_name nm pl)
  then (Raise (ValueError (duplicate_message (stored_name nm pl))),
        (note_level pl s, w))
  else (Return tt,
        (set_images (odict_set imgs (stored_name nm pl) (persisted image))
                    (note_level pl s),
         snd (cv2_imwrite (os_path_join dir [stored_name nm pl +:+ ".png"])
                          (persisted image) w))).
Proof.
  intros Hr Hd Hi. apply ready_inv in Hr as (n0 & fn & dir0 & imgs0 & ps & d & ->).
  cbn in Hd, Hi. injection Hd as ->. injection Hi as ->.
  unfold imwrite, note_level, persisted. run_py.
  pose proof cv2_imwrite_returns as HW. revert HW.
  generalize cv2_imwrite. intros W HW. cbn.
  destruct pl as [p|]; cbn;
    destruct (odict_contains imgs _); cbn; try reflexivity;
    match goal with
    | |- context [W ?path ?img ?w0] =>
        destruct (HW path img w0) as [b Hb]; rewrite Hb
    end; reflexivity.
Qed.

(** What [cv2.imwrite] does to the world: nothing, or one file written. *)
Lemma cv2_imwrite_world (path : string) (img : Image) (w : World) :
  let w' := snd (cv2_imwrite path img w) in
  (w' = w \/
   exists place : location,
     resolve w path = Some place /\ is_directory w place = false /\
     imwrite_ok w place = true /\ w' = write_file place img w) /\
  _debug_level w' = _debug_level w /\ _frame_number w' = _frame_number w /\
  stderr w' = stderr w /\ directories w' = directories w /\
  config_verbose w' = config_verbose w /\ argv0 w' = argv0 w /\
  mkdir_p_ok w' = mkdir_p_ok w /\ imwrite_ok w' = imwrite_ok w.
Proof.
  unfold cv2_imwrite.
  destruct (resolve w path) as [place|]; [|cbn; repeat split; auto].
  destruct (is_directory w place) eqn:Hd, (imwrite_ok w place) eqn:Ho; cbn;
    repeat split; auto.
  right. exists place. repeat split; auto.
Qed.

(** [cv2.imwrite] does not look at the verbosity level. *)
Lemma cv2_imwrite_level (l : option Z) (path : string) (img : Image) (w : World) :
  cv2_imwrite path img (set_debug_level l w) =
  (fst (cv2_imwrite path img w), set_debug_level l (snd (cv2_imwrite path img w))).
Proof.
  unfold cv2_imwrite, resolve.
  rewrite (walk_ext w (set_debug_level l w) _ eq_refl).
  destruct (walk w _ _) as [place|]; [|reflexivity].
  rewrite (is_directory_ext w (set_debug_level l w) place eq_refl). cbn.
  destruct (_ && _); reflexivity.
Qed.

(** [imwrite] on any instance: either the world is untouched and the
    instance keeps its identity and its metadata (the call
    returned at once, or raised), or the instance was enabled, the name was
    fresh, the image has been kept and [cv2.imwrite] has been called once. *)
Lemma imwrite_cases (s s' : t) (w w' : World) (nm : string) (image : Image)
      (pl : option Z) (r : outcome unit) :
  imwrite nm image pl (s, w) = (r, (s', w')) ->
  (w' = w /\
   enabled s' = enabled s /\ name s' = name s /\
   frame_number s' = frame_number s /\ outdir s' = outdir s /\
   data s' = data s /\
   (r = Return tt -> enabled s = false)) \/
  (exists (dir : string) (imgs : list (string * Image)),
      r = Return tt /\ enabled s = true /\
      outdir s = Some dir /\ images s = Some imgs /\
      odict_contains imgs (stored_name nm pl) = false /\
      s' = set_images (odict_set imgs (stored_name nm pl) (persisted image))
                      (note_level pl s) /\
      w' = snd (cv2_imwrite (os_path_join dir [stored_name nm pl +:+ ".png"])
                            (persisted image) w)).
Proof.
  unfold imwrite, note_level, persisted. run_py.
  pose proof cv2_imwrite_returns as HW. revert HW.
  generalize cv2_imwrite. intros W HW.
  destruct s as [[] n0 fn od im ps d]; cbn.
  - destruct pl as [p|], ps as [ps|], im as [im|]; cbn;
      try (intros [= <- <- <-]; left; repeat split; try reflexivity; intros; discriminate);
      destruct (odict_contains im _) eqn:E; cbn;
      try (intros [= <- <- <-]; left; repeat split; try reflexivity; intros; discriminate);
      (destruct od as [od|]; cbn;
       [|intros [= <- <- <-]; left; repeat split; try reflexivity; intros; discriminate]);
      match goal with
      | |- context [W ?path ?img ?w0] =>
          destruct (HW path img w0) as [b Hb]; rewrite Hb
      end; cbn; intros [= <- <- <-]; right; exists od, im; repeat split; assumption.
  - intros [= <- <- <-]. left. repeat split.
Qed.

(** Keeping an image changes neither the identity nor the metadata. *)
Lemma kept_image_identity (s : t) (pl : option Z) (i : list (string * Image)) :
  let s' := set_images i (note_level pl s) in
  enabled s' = enabled s /\ name s' = name s /\
  frame_number s' = frame_number s /\ outdir s' = outdir s /\
  data s' = data s.
Proof.
  unfold note_level. destruct pl, (pyramid_levels s); cbn; repeat split.
Qed.

Lemma set_ready (s : t) (w : World) (kwargs : list (string * value)) :
  ready s = true ->
  exists d, set kwargs (s, w) = (Return tt, (set_data d s, w)).
Proof.
  intros Hr. apply ready_inv in Hr as (n0 & fn & dir0 & imgs0 & ps & d & ->).
  unfold set. run_py. cbn.
  eexists. now rewrite (store_kwargs_ok kwargs _ w d).
Qed.

End ImageLoggerFacts.

(** ** [ImageLogger]: the four ways [__init__] can go *)

Section ImageLoggerInit.

Import ImageLogger.

Variables (nm : string) (kwargs : list (string * value)) (w : World).


Lemma init_raises (e : exn) (w1 : World) :
  get_debug_level w = (Raise e, w1) ->
  __init__ nm kwargs w = (Raise e, w1).
Proof.
  intros H. unfold __init__, init_body. run_py. rewrite H. reflexivity.
Qed.

Lemma init_level_low (l : Z) (w1 : World) :
  get_debug_level w = (Return l, w1) -> l <= 1 ->
  __init__ nm kwargs w = (Return blank, w1).
Proof.
  intros H Hl. unfold __init__, init_body. run_py. rewrite H.
  destruct (Z.ltb_spec 1 l); [lia|]. reflexivity.
Qed.

Lemma init_mkdir_failed (l : Z) (w1 : World) :
  get_debug_level w = (Return l, w1) -> 2 <= l ->
  mkdir_p_ok w
    (os_path_join "stbt-debug" [nm; format_05d (_frame_number w)]) = false ->
  __init__ nm kwargs w =
  (Return (mk false (Some nm) (Some (_frame_number w)) None None None None),
   stderr_write
     (program_name w +:+ ": warning: " +:+ failed_directory_warning
        (os_path_join "stbt-debug" [nm; format_05d (_frame_number w)]) +:+ newline)
     (set_class_frame_number (_frame_number w + 1) w1)).
Proof.
  intros H Hl Hm. pose proof (get_debug_level_spec _ _ _ H) as [Hw _].
  unfold __init__, init_body. run_py. rewrite H.
  destruct (Z.ltb_spec 1 l); [|lia]. cbn.
  unfold mkdir_p, warn. run_py. subst w1. cbn.
  unfold os_path_join in *. cbn [fold_left] in *. rewrite Hm. reflexivity.
Qed.

Lemma init_enabled (l : Z) (w1 : World) :
  get_debug_level w = (Return l, w1) -> 2 <= l ->
  mkdir_p_ok w
    (os_path_join "stbt-debug" [nm; format_05d (_frame_number w)]) = true ->
  __init__ nm kwargs w =
  (Return (mk true (Some nm) (Some (_frame_number w))
              (Some (os_path_join "stbt-debug" [nm; format_05d (_frame_number w)]))
              (Some [])
              (Some ∅)
              (Some (fold_left (fun m kv => <[fst kv := snd kv]> m) kwargs ∅))),
   add_directory (os_path_join "stbt-debug" [nm; format_05d (_frame_number w)])
     (set_class_frame_number (_frame_number w + 1) w1)).
Proof.
  intros H Hl Hm. pose proof (get_debug_level_spec _ _ _ H) as [Hw _].
  unfold __init__, init_body. run_py. rewrite H.
  destruct (Z.ltb_spec 1 l); [|lia]. cbn.
  unfold mkdir_p. run_py. subst w1. cbn.
  unfold os_path_join in *. cbn [fold_left] in *. rewrite Hm. cbn.
  rewrite (store_kwargs_ok kwargs _ _ ∅) by reflexivity. reflexivity.
Qed.

End ImageLoggerInit.

(** ** Disabled loggers *)

Lemma disabled_logger_kept (s : ImageLogger.t) (i : nat) :
  ImageLogger.enabled s = false ->
  forall (st : Process.step) (p : Process.t),
    Process.loggers p !! i = Some s ->
    Process.loggers (Process.run_step p st) !! i = Some s.
Proof.
  intros Hs st p Hi. destruct st as [nm kwargs|j c|l|msg]; cbn.
  - destruct (ImageLogger.__init__ nm kwargs (Process.world p)) as [[self|e] w'];
      cbn; [|assumption].
    rewrite lookup_app_l; [assumption|]. now apply lookup_lt_Some in Hi.
  - destruct (Process.loggers p !! j) as [self|] eqn:Hj; [|assumption].
    destruct (decide (j = i)) as [->|Hne].
    + rewrite Hi in Hj. injection Hj as <-.
      rewrite disabled_call_noop by assumption. cbn.
      rewrite list_insert_id; assumption.
    + destruct (ImageLogger.run_call c (self, Process.world p)) as [r [self' w']].
      cbn. rewrite list_lookup_insert_ne; assumption.
  - assumption.
  - assumption.
Qed.

(** C2: a logger whose [enabled] flag is false answers every [set] and
    [imwrite] by returning at once: the instance, the error stream, the
    directories and the files are all as before, in whatever state the rest
    of the process is; whatever the process does afterwards (raising the
    level, creating other loggers, calling this one), the instance stays
    as it is, disabled.  A logger created while the level is 0 or 1 (at most
    1) is such a logger; its creation makes no directory, writes no file
    and takes no sequence number, and calls of [imwrite] on it write
    nothing.  A logger whose directory could not be made is such a logger
    too. *)
Theorem disabled_logger_is_inert :
  (forall (s : ImageLogger.t) (w : World) (cs : list ImageLogger.call),
      ImageLogger.enabled s = false ->
      ImageLogger.run_calls cs (s, w) = (map (fun _ => Return tt) cs, (s, w))) /\
  (forall (s : ImageLogger.t) (i : nat) (steps : list Process.step) (p : Process.t),
      ImageLogger.enabled s = false ->
      Process.loggers p !! i = Some s ->
      Process.loggers (Process.run steps p) !! i = Some s) /\
  (forall (nm : string) (kwargs : list (string * value)) (w w1 : World) (l : Z)
          (cs : list ImageLogger.call),
      get_debug_level w = (Return l, w1) -> l <= 1 ->
      exists s : ImageLogger.t,
        ImageLogger.__init__ nm kwargs w = (Return s, w1) /\
        ImageLogger.enabled s = false /\
        directories w1 = directories w /\ files w1 = files w /\
        stderr w1 = stderr w /\ _frame_number w1 = _frame_number w /\
        ImageLogger.run_calls cs (s, w1) = (map (fun _ => Return tt) cs, (s, w1))) /\
  (forall (nm : string) (kwargs : list (string * value)) (w w1 : World) (l : Z),
      get_debug_level w = (Return l, w1) -> 2 <= l ->
      mkdir_p_ok w (os_path_join "stbt-debug" [nm; format_05d (_frame_number w)])
      = false ->
      exists (s : ImageLogger.t) (w2 : World),
        ImageLogger.__init__ nm kwargs w = (Return s, w2) /\
        ImageLogger.enabled s = false).
Proof.
  split; [intros; now apply disabled_calls_noop|].
  split.
  { intros s i steps. induction steps as [|st steps IH]; intros p Hs Hi.
    - exact Hi.
    - cbn. apply IH; [assumption|]. now apply disabled_logger_kept. }
  split.
  - intros nm kwargs w w1 l cs H Hl. exists ImageLogger.blank.
    pose proof (get_debug_level_spec _ _ _ H) as [Hw _].
    split; [now apply (init_level_low nm kwargs w l)|].
    split; [reflexivity|]. subst w1.
    repeat split. now apply disabled_calls_noop.
  - intros nm kwargs w w1 l H Hl Hm.
    rewrite (init_mkdir_failed nm kwargs w l w1 H Hl Hm).
    do 2 eexists. split; reflexivity.
Qed.

Lemma disabled_logger_is_inert_witness :
  exists s : ImageLogger.t,
    ImageLogger.__init__ "match" [] Sample.fresh_world =
    (Return s, set_debug_level (Some 1) Sample.fresh_world) /\
    ImageLogger.run_calls
      [ImageLogger.Imwrite "source" Sample.frame None;
       ImageLogger.Set_ [("position", VInt 3)]]
      (s, set_debug_level (Some 1) Sample.fresh_world) =
    ([Return tt; Return tt], (s, set_debug_level (Some 1) Sample.fresh_world)) /\
    Process.loggers
      (Process.run [Process.Assign (Some 2);
                    Process.CallOn 0 (ImageLogger.Imwrite "source" Sample.frame None)]
         (Process.mk (set_debug_level (Some 1) Sample.fresh_world) [s])) !! 0%nat
    = Some s.
Proof.
  destruct disabled_logger_is_inert as (_ & HB & HC & _).
  destruct (HC "match" [] Sample.fresh_world
              (set_debug_level (Some 1) Sample.fresh_world) 1
              [ImageLogger.Imwrite "source" Sample.frame None;
               ImageLogger.Set_ [("position", VInt 3)]]
              eq_refl ltac:(lia))
    as (s & H1 & H2 & _ & _ & _ & _ & H3).
  exists s. split; [exact H1|]. split; [exact H3|].
  apply HB; [exact H2 | reflexivity].
Defined.



(** ** Sequence numbers *)

Lemma store_kwargs_numbers (kwargs : list (string * value)) :
  forall (s s' : ImageLogger.t) (w w' : World) (r : outcome unit),
    ImageLogger.store_kwargs kwargs (s, w) = (r, (s', w')) ->
    ImageLogger.frame_number s' = ImageLogger.frame_number s /\
    ImageLogger.enabled s' = ImageLogger.enabled s /\ w' = w.
Proof.
  induction kwargs as [|kv rest IH]; intros s s' w w' r.
  - cbn. intros [= _ <- <-]. auto.
  - cbn [ImageLogger.store_kwargs]. unfold ImageLogger.data_setitem. run_py.
    destruct (ImageLogger.data s) as [d|].
    + intros H. apply IH in H as (H1 & H2 & H3). auto.
    + intros [= _ <- <-]. auto.
Qed.

(** No method changes the instance's sequence number or the class
    counter. *)
Lemma run_call_numbers (c : ImageLogger.call) (s s' : ImageLogger.t)
      (w w' : World) (r : outcome unit) :
  ImageLogger.run_call c (s, w) = (r, (s', w')) ->
  ImageLogger.frame_number s' = ImageLogger.frame_number s /\
  _frame_number w' = _frame_number w.
Proof.
  destruct c as [kwargs|nm image pl]; cbn [ImageLogger.run_call].
  - unfold ImageLogger.set. run_py. destruct (ImageLogger.enabled s); cbn.
    + intros H. apply store_kwargs_numbers in H as (H1 & _ & ->). auto.
    + intros [= _ <- <-]. auto.
  - intros H.
    destruct (imwrite_cases _ _ _ _ _ _ _ _ H)
      as [(-> & _ & _ & Hf & _)|(dir & imgs & _ & _ & _ & _ & _ & -> & ->)].
    + auto.
    + split; [apply kept_image_identity | apply cv2_imwrite_world].
Qed.

(** [__init__] hands out the current value of the class counter and moves
    the counter on by one, or hands out nothing and leaves it alone. *)
Lemma init_numbers (nm : string) (kwargs : list (string * value))
      (w w' : World) (r : outcome ImageLogger.t) :
  ImageLogger.__init__ nm kwargs w = (r, w') ->
  match r with
  | Return s =>
      ImageLogger.frame_number s = None /\ _frame_number w' = _frame_number w \/
      ImageLogger.frame_number s = Some (_frame_number w) /\
      _frame_number w' = _frame_number w + 1
  | Raise _ => _frame_number w' = _frame_number w
  end.
Proof.
  destruct (get_debug_level w) as [[l|e] w1] eqn:H.
  - pose proof (get_debug_level_spec _ _ _ H) as [Hw _].
    destruct (Z.le_gt_cases l 1) as [Hl|Hl].
    + rewrite (init_level_low nm kwargs w l w1 H Hl).
      intros [= <- <-]. left. subst w1. auto.
    + destruct (mkdir_p_ok w (os_path_join "stbt-debug"
                                [nm; format_05d (_frame_number w)])) eqn:Hm.
      * rewrite (init_enabled nm kwargs w l w1 H ltac:(lia) Hm).
        intros [= <- <-]. right. auto.
      * rewrite (init_mkdir_failed nm kwargs w l w1 H ltac:(lia) Hm).
        intros [= <- <-]. right. auto.
  - rewrite (init_raises nm kwargs w e w1 H). intros [= <- <-].
    apply get_debug_level_raise in H as [_ ->]. reflexivity.
Qed.

Lemma omap_insert_same {A B} (f : A -> option B) (l : list A) (i : nat) (x x' : A) :
  l !! i = Some x -> f x' = f x -> omap f (<[i := x']> l) = omap f l.
Proof.
  revert i. induction l as [|y l IH]; intros [|i]; cbn; try discriminate.
  - intros [= ->] ->. reflexivity.
  - intros Hi Hf. change (omap f (y :: <[i:=x']> l) = omap f (y :: l)).
    cbn. rewrite (IH i Hi Hf). reflexivity.
Qed.

Lemma numbers_in_order_step (p : Process.t) (st : Process.step) :
  Process.numbers_in_order p -> Process.numbers_in_order (Process.run_step p st).
Proof.
  intros [Hs Hb]. unfold Process.numbers_in_order, Process.sequence_numbers in *.
  destruct st as [nm kwargs|i c|l|msg]; cbn.
  - pose proof (init_numbers nm kwargs (Process.world p)) as Hi.
    destruct (ImageLogger.__init__ nm kwargs (Process.world p)) as [[s|e] w'].
    + specialize (Hi _ _ eq_refl). cbn in *. cbn. rewrite omap_app. cbn.
      destruct Hi as [[Hn Hc]|[Hn Hc]]; rewrite Hn, ?Hc; cbn.
      * rewrite app_nil_r. auto.
      * split.
        -- apply StronglySorted_app_2; [|assumption|repeat constructor].
           intros x1 x2 H1 H2. apply list_elem_of_singleton in H2 as ->.
           rewrite Forall_forall in Hb. now apply Hb.
        -- apply Forall_app. split.
           ++ eapply Forall_impl; [exact Hb|]. cbn. intros; lia.
           ++ repeat constructor. lia.
    + specialize (Hi _ _ eq_refl). cbn in *. rewrite Hi. auto.
  - destruct (Process.loggers p !! i) as [s|] eqn:Hl; [|auto].
    destruct (ImageLogger.run_call c (s, Process.world p)) as [r [s' w']] eqn:E.
    destruct (run_call_numbers _ _ _ _ _ _ E) as [H1 H2]. cbn.
    rewrite (omap_insert_same _ _ _ s s' Hl H1), H2. auto.
  - auto.
  - assert (Hw : _frame_number (snd (debug msg (Process.world p))) =
                 _frame_number (Process.world p)).
    { unfold debug. run_py.
      destruct (get_debug_level (Process.world p)) as [[l|e] w1] eqn:H.
      - apply get_debug_level_spec in H as [-> _].
        destruct (0 <? l); reflexivity.
      - apply get_debug_level_raise in H as [_ ->]. reflexivity. }
    rewrite Hw. auto.
Qed.

Lemma numbers_in_order_run (steps : list Process.step) :
  forall p : Process.t,
    Process.numbers_in_order p -> Process.numbers_in_order (Process.run steps p).
Proof.
  induction steps as [|st steps IH]; intros p H; [exact H|].
  cbn. apply IH. now apply numbers_in_order_step.
Qed.

Lemma sorted_omap_pairwise {A} (f : A -> option Z) (l : list A) :
  StronglySorted Z.lt (omap f l) ->
  forall (i j : nat) (x y : A) (a b : Z),
    (i < j)%nat -> l !! i = Some x -> l !! j = Some y ->
    f x = Some a -> f y = Some b -> a < b.
Proof.
  induction l as [|z l IH]; intros Hs i j x y a b Hij Hi Hj Ha Hb.
  - discriminate.
  - destruct j as [|j]; [lia|]. cbn in Hj.
    change (omap f (z :: l)) with
      (match f z with Some c => c :: omap f l | None => omap f l end) in Hs.
    destruct i as [|i]; cbn in Hi.
    + injection Hi as ->. rewrite Ha in Hs.
      apply StronglySorted_cons in Hs as [Hall _].
      rewrite Forall_forall in Hall. apply Hall.
      apply list_elem_of_omap. exists y. split; [|assumption].
      eapply list_elem_of_lookup_2; eassumption.
    + apply (IH ltac:(destruct (f z); [now apply StronglySorted_cons in Hs|assumption])
                i j x y a b); auto; lia.
Qed.

(** C3: in any run of a process, starting with no logger, the sequence
    numbers handed to the loggers it creates, taken in creation order, are
    strictly increasing and hence without repetition, whatever the loggers
    are called and whatever else happens in between; of two loggers that
    received a number, the one created later has the larger one.  (A logger
    created while the level is below 2 receives none.) *)
Theorem sequence_numbers_strictly_increase :
  forall (w : World) (steps : list Process.step),
    let p := Process.run steps (Process.start w) in
    StronglySorted Z.lt (Process.sequence_numbers p) /\
    NoDup (Process.sequence_numbers p) /\
    (forall (i j : nat) (first second : ImageLogger.t) (a b : Z),
        (i < j)%nat ->
        Process.loggers p !! i = Some first ->
        Process.loggers p !! j = Some second ->
        ImageLogger.frame_number first = Some a ->
        ImageLogger.frame_number second = Some b ->
        a < b).
Proof.
  intros w steps p.
  assert (Hs : StronglySorted Z.lt (Process.sequence_numbers p)).
  { apply (numbers_in_order_run steps (Process.start w)).
    split; constructor. }
  split; [exact Hs|]. split.
  - clear -Hs. induction Hs as [|a l Hs IH Ha]; constructor; [|assumption].
    intros Hin. rewrite Forall_forall in Ha. apply Ha in Hin. lia.
  - now apply sorted_omap_pairwise.
Qed.

Lemma sequence_numbers_strictly_increase_witness :
  Process.sequence_numbers
    (Process.run [Process.Create "match" []; Process.Assign (Some 0);
                  Process.Create "motion" []; Process.Assign (Some 2);
                  Process.Create "match" []]
       (Process.start Sample.verbose_world)) = [7; 8] /\
  7 < 8.
Proof.
  split; [reflexivity|].
  destruct (sequence_numbers_strictly_increase Sample.verbose_world
              [Process.Create "match" []; Process.Assign (Some 0);
               Process.Create "motion" []; Process.Assign (Some 2);
               Process.Create "match" []]) as (_ & _ & H).
  eapply (H 0%nat 2%nat); [lia | reflexivity..].
Defined.

(** ** Duplicate names *)

Lemma odict_contains_set {V} (d : list (string * V)) (k : string) (v : V) :
  ImageLogger.odict_contains (ImageLogger.odict_set d k v) k = true.
Proof.
  induction d as [|[k' v'] d IH]; cbn.
  - now rewrite String.eqb_refl.
  - destruct (String.eqb k' k) eqn:E; cbn; rewrite E; [reflexivity|exact IH].
Qed.

(** C5: on a logger that is enabled and fully initialised, [imwrite] under
    a name which, once prefixed with the pyramid level, is already a key of
    [images] raises [ValueError] to the caller; under a name that is not
    yet a key it returns normally and the name is a key afterwards.  Two
    loggers keep separate [images]: the same name can be stored in one and
    then in the other, whatever the first already holds. *)
Theorem duplicate_name_raises :
  forall (s : ImageLogger.t) (w : World) (nm : string) (image : Image)
         (pl : option Z),
    ImageLogger.ready s = true ->
    (ImageLogger.has_image s (ImageLogger.stored_name nm pl) = true ->
     fst (ImageLogger.imwrite nm image pl (s, w)) =
     Raise (ValueError (ImageLogger.duplicate_message (ImageLogger.stored_name nm pl)))) /\
    (ImageLogger.has_image s (ImageLogger.stored_name nm pl) = false ->
     exists (s' : ImageLogger.t) (w' : World),
       ImageLogger.imwrite nm image pl (s, w) = (Return tt, (s', w')) /\
       ImageLogger.ready s' = true /\
       ImageLogger.has_image s' (ImageLogger.stored_name nm pl) = true /\
       forall other : ImageLogger.t,
         ImageLogger.ready other = true ->
         ImageLogger.has_image other (ImageLogger.stored_name nm pl) = false ->
         exists (other' : ImageLogger.t) (w'' : World),
           ImageLogger.imwrite nm image pl (other, w') = (Return tt, (other', w'')) /\
           ImageLogger.has_image other' (ImageLogger.stored_name nm pl) = true).
Proof.
  assert (Hfresh : forall (s : ImageLogger.t) (w : World) nm image pl,
             ImageLogger.ready s = true ->
             ImageLogger.has_image s (ImageLogger.stored_name nm pl) = false ->
             exists (s' : ImageLogger.t) (w' : World),
               ImageLogger.imwrite nm image pl (s, w) = (Return tt, (s', w')) /\
               ImageLogger.ready s' = true /\
               ImageLogger.has_image s' (ImageLogger.stored_name nm pl) = true).
  { intros s w nm image pl Hr Hf.
    destruct (ready_inv s Hr) as (n0 & fn & dir & imgs & ps & d & ->).
    rewrite (imwrite_ready _ w nm image pl dir imgs Hr eq_refl eq_refl).
    cbn in Hf. rewrite Hf. do 2 eexists. split; [reflexivity|].
    destruct pl; cbn; now rewrite odict_contains_set. }
  intros s w nm image pl Hr. split.
  - intros Hd. destruct (ready_inv s Hr) as (n0 & fn & dir & imgs & ps & d & ->).
    rewrite (imwrite_ready _ w nm image pl dir imgs Hr eq_refl eq_refl).
    cbn in Hd. rewrite Hd. reflexivity.
  - intros Hf. destruct (Hfresh s w nm image pl Hr Hf) as (s' & w' & H1 & H2 & H3).
    exists s', w'. repeat split; try assumption.
    intros other Ho Hof.
    destruct (Hfresh other w' nm image pl Ho Hof) as (o' & w'' & H4 & _ & H5).
    now exists o', w''.
Qed.

Lemma duplicate_name_raises_witness :
  fst (ImageLogger.imwrite "diff" Sample.frame (Some 1)
         (ImageLogger.set_images [("level1-diff", Sample.frame)] Sample.match_logger,
          Sample.verbose_world)) =
  Raise (ValueError "Image for name 'level1-diff' already logged") /\
  exists (s' : ImageLogger.t) (w' : World),
    ImageLogger.imwrite "source" Sample.frame None
      (Sample.match_logger, Sample.verbose_world) = (Return tt, (s', w')).
Proof.
  split.
  - apply (duplicate_name_raises
             (ImageLogger.set_images [("level1-diff", Sample.frame)] Sample.match_logger)
             Sample.verbose_world "diff" Sample.frame (Some 1) eq_refl).
    reflexivity.
  - destruct (duplicate_name_raises Sample.match_logger Sample.verbose_world
                "source" Sample.frame None eq_refl) as [_ H].
    destruct (H eq_refl) as (s' & w' & H1 & _). now exists s', w'.
Defined.

(** C10: whenever [imwrite] raises [ValueError], the world is as it was
    before the call (no file written, nothing printed), and the instance's
    [images] and [data] are as they were: the test for a duplicate comes
    before the image is converted, kept or written. *)
Theorem duplicate_error_changes_nothing :
  forall (s s' : ImageLogger.t) (w w' : World) (nm : string) (image : Image)
         (pl : option Z) (msg : string),
    ImageLogger.imwrite nm image pl (s, w) = (Raise (ValueError msg), (s', w')) ->
    w' = w /\ files w' = files w /\
    ImageLogger.images s' = ImageLogger.images s /\
    ImageLogger.data s' = ImageLogger.data s /\
    msg = ImageLogger.duplicate_message (ImageLogger.stored_name nm pl) /\
    ImageLogger.has_image s (ImageLogger.stored_name nm pl) = true.
Proof.
  intros s s' w w' nm image pl msg.
  unfold ImageLogger.imwrite, ImageLogger.has_image. run_py.
  pose proof cv2_imwrite_returns as HW. revert HW.
  generalize cv2_imwrite. intros W HW.
  destruct s as [[] n0 fn od im ps d]; cbn; [|discriminate].
  destruct pl as [p|], ps as [ps|], im as [im|]; cbn; try discriminate;
    destruct (ImageLogger.odict_contains im _) eqn:E; cbn;
    try (intros [= <- <- <-]; now auto);
    destruct od as [od|]; cbn; try discriminate;
    match goal with
    | |- context [W ?path ?img ?w0] =>
        destruct (HW path img w0) as [b Hb]; rewrite Hb
    end; cbn; discriminate.
Qed.

Lemma duplicate_error_changes_nothing_witness :
  let s := ImageLogger.set_images [("level1-diff", Sample.frame)] Sample.match_logger in
  snd (ImageLogger.imwrite "diff" Sample.heatmap (Some 1) (s, Sample.verbose_world))
  = (ImageLogger.set_pyramid_levels {[1]} s, Sample.verbose_world) /\
  files Sample.verbose_world = ∅.
Proof.
  split; [vm_compute; reflexivity|].
  pose proof (duplicate_error_changes_nothing
           (ImageLogger.set_images [("level1-diff", Sample.frame)] Sample.match_logger)
           (ImageLogger.set_pyramid_levels ({[1]} ∪ ∅)
              (ImageLogger.set_images [("level1-diff", Sample.frame)] Sample.match_logger))
           Sample.verbose_world Sample.verbose_world
           "diff" Sample.heatmap (Some 1)
           "Image for name 'level1-diff' already logged" eq_refl) as (_ & H & _).
  exact H.
Defined.

(** ** Heat maps *)

Section Float32Facts.

Local Open Scope Q_scope.

Lemma round_half_even_spec (q : Q) :
  let r := round_half_even q in
  let n := Qnum q in
  let d := Zpos (Qden q) in
  (2 * d * r - d <= 2 * n <= 2 * d * r + d /\
  (2 * n = 2 * d * r + d -> Z.even r = true) /\
  (2 * n = 2 * d * r - d -> Z.even r = true))%Z.
Proof.
  destruct q as [n d]. unfold round_half_even, Qfloor. cbn [Qnum Qden].
  pose proof (Z.div_mod n (Zpos d) ltac:(lia)) as Hdm.
  pose proof (Z.mod_pos_bound n (Zpos d) ltac:(lia)) as Hm.
  set (f := (n / Zpos d)%Z) in *. set (m := (n mod Zpos d)%Z) in *.
  assert (Hn : (n - f * Zpos d = m)%Z) by lia. rewrite Hn.
  destruct (Z.compare_spec (2 * m) (Zpos d)) as [He|Hlt|Hgt].
  - destruct (Z.even f) eqn:Ev.
    + repeat split; try lia. intros; assumption.
    + assert (Eo : Z.even (f + 1) = true).
      { rewrite Z.even_add, Ev. reflexivity. }
      repeat split; try lia. intros; assumption.
  - repeat split; lia.
  - repeat split; lia.
Qed.

Lemma round_half_even_monotone (p q : Q) :
  p <= q -> (round_half_even p <= round_half_even q)%Z.
Proof.
  intros Hle. unfold Qle in Hle.
  destruct (round_half_even_spec p) as ([Hpl _] & _ & Hpe).
  destruct (round_half_even_spec q) as ([_ Hqu] & Hqe & _).
  set (rp := round_half_even p) in *. set (rq := round_half_even q) in *.
  set (a := Qnum p) in *. set (b := Zpos (Qden p)) in *.
  set (c := Qnum q) in *. set (d := Zpos (Qden q)) in *.
  assert (Hb : (0 < b)%Z) by (subst b; lia).
  assert (Hd : (0 < d)%Z) by (subst d; lia).
  destruct (Z.le_gt_cases rp rq) as [|Hgt]; [assumption|exfalso].
  assert (H1 : ((2 * b * rp - b) * d <= 2 * a * d)%Z) by nia.
  assert (H2 : (2 * c * b <= (2 * d * rq + d) * b)%Z) by nia.
  assert (H3 : (b * d * (2 * rp - 1) <= b * d * (2 * rq + 1))%Z) by nia.
  assert (H4 : (2 * rp - 1 <= 2 * rq + 1)%Z).
  { apply Z.mul_le_mono_pos_l with (p := (b * d)%Z); nia. }
  assert (Hr : rp = (rq + 1)%Z) by lia.
  assert (Ep : (2 * a = 2 * b * rp - b)%Z) by nia.
  assert (Eq' : (2 * c = 2 * d * rq + d)%Z) by nia.
  apply Hpe in Ep. apply Hqe in Eq'.
  rewrite Hr, Z.even_add, Eq' in Ep. discriminate.
Qed.

Lemma round_half_even_Qeq (p q : Q) :
  p == q -> round_half_even p = round_half_even q.
Proof.
  intros H. apply Z.le_antisymm; apply round_half_even_monotone;
    rewrite H; apply Qle_refl.
Qed.

Lemma round_half_even_inject (k : Z) : round_half_even (inject_Z k) = k.
Proof.
  unfold round_half_even. rewrite Qfloor_Z. cbn [Qnum Qden inject_Z].
  replace (2 * (k - k * 1))%Z with 0%Z by lia. reflexivity.
Qed.

Lemma pow2_pos (e : Z) : 0 < 2 ^ e.
Proof. apply Qpower_0_lt. reflexivity. Qed.

Lemma pow2_plus (a b : Z) : 2 ^ (a + b) == 2 ^ a * 2 ^ b.
Proof. apply Qpower_plus. discriminate. Qed.

Lemma pow2_le (a b : Z) : (a <= b)%Z -> 2 ^ a <= 2 ^ b.
Proof. intros H. apply Qpower_le_compat_l; [assumption|discriminate]. Qed.

Lemma pow2_inject (a : Z) : (0 <= a)%Z -> inject_Z (2 ^ a) == 2 ^ a.
Proof. intros H. now rewrite Zpower_Qpower. Qed.

(** [ilog2 q] is the exponent of the power of two at or below [q]. *)
Lemma ilog2_spec (q : Q) : 0 < q -> 2 ^ ilog2 q <= q /\ q < 2 ^ (ilog2 q + 1).
Proof.
  intros Hq. unfold ilog2.
  destruct q as [n d]. cbn [Qnum Qden].
  assert (Hn : (0 < n)%Z).
  { unfold Qlt in Hq. cbn in Hq. lia. }
  set (a := Z.log2 n). set (b := Z.log2 (Zpos d)).
  destruct (Z.log2_spec n Hn) as [Ha1 Ha2]. fold a in Ha1, Ha2.
  destruct (Z.log2_spec (Zpos d) ltac:(lia)) as [Hb1 Hb2]. fold b in Hb1, Hb2.
  assert (Ha0 : (0 <= a)%Z) by apply Z.log2_nonneg.
  assert (Hb0 : (0 <= b)%Z) by apply Z.log2_nonneg.
  set (T := 2 ^ (a - b)).
  assert (HT : 0 < T) by apply pow2_pos.
  set (x := inject_Z n). set (y := inject_Z (Zpos d)).
  assert (Hx1 : T * 2 ^ b <= x).
  { unfold T. rewrite <- pow2_plus. replace (a - b + b)%Z with a by lia.
    rewrite <- pow2_inject by assumption. unfold x. rewrite <- Zle_Qle. exact Ha1. }
  assert (Hx2 : x < 2 * (T * 2 ^ b)).
  { unfold T. rewrite <- pow2_plus. replace (a - b + b)%Z with a by lia.
    rewrite <- pow2_inject by assumption. unfold x.
    change 2 with (inject_Z 2) at 1. rewrite <- inject_Z_mult, <- Zlt_Qlt.
    rewrite Z.pow_succ_r in Ha2 by assumption. exact Ha2. }
  assert (Hy1 : 2 ^ b <= y).
  { rewrite <- pow2_inject by assumption. unfold y. rewrite <- Zle_Qle. exact Hb1. }
  assert (Hy2 : y < 2 * 2 ^ b).
  { rewrite <- pow2_inject by assumption. unfold y.
    change 2 with (inject_Z 2) at 1. rewrite <- inject_Z_mult, <- Zlt_Qlt.
    rewrite Z.pow_succ_r in Hb2 by assumption. exact Hb2. }
  assert (HB : 0 < 2 ^ b) by apply pow2_pos.
  assert (Hy : 0 < y) by lra.
  assert (Hqxy : n # d == x / y) by apply Qmake_Qdiv.
  assert (HTy1 : T * 2 ^ b <= T * y) by (apply Qmult_le_l; assumption).
  assert (HTy2 : T * y < 2 * (T * 2 ^ b)).
  { assert (E2 : 2 * (T * 2 ^ b) == T * (2 * 2 ^ b)) by ring.
    rewrite E2. apply Qmult_lt_l; assumption. }
  assert (Hup : x / y < 2 * T).
  { apply Qlt_shift_div_r; [assumption|].
    assert (E1 : 2 * T * y == 2 * (T * y)) by ring. rewrite E1.
    revert Hx2 HTy1. generalize (T * 2 ^ b) (T * y) x. clear. intros P R x ? ?. lra. }
  assert (Hlo : T / 2 <= x / y).
  { apply Qle_shift_div_l; [assumption|].
    assert (E1 : T / 2 * y == (1 # 2) * (T * y)) by field. rewrite E1.
    revert Hx1 HTy2. generalize (T * 2 ^ b) (T * y) x. clear. intros P R x ? ?. lra. }
  destruct (Qle_bool T (n # d)) eqn:E.
  - apply Qle_bool_iff in E. split; [exact E|].
    rewrite pow2_plus. fold T. rewrite Hqxy.
    change (2 ^ 1) with 2. rewrite Qmult_comm. exact Hup.
  - assert (E' : n # d < T).
    { apply Qnot_le_lt. intros H. apply Qle_bool_iff in H. congruence. }
    assert (HTT : 2 ^ (a - b - 1) * 2 == T).
    { unfold T. change 2 with (2 ^ 1) at 2. rewrite <- pow2_plus.
      replace (a - b - 1 + 1)%Z with (a - b)%Z by lia. reflexivity. }
    split.
    + rewrite Hqxy.
      assert (E2 : 2 ^ (a - b - 1) == T / 2) by (rewrite <- HTT; field).
      rewrite E2. exact Hlo.
    + replace (a - b - 1 + 1)%Z with (a - b)%Z by lia. exact E'.
Qed.

Lemma ilog2_monotone (p q : Q) : 0 < p -> p <= q -> (ilog2 p <= ilog2 q)%Z.
Proof.
  intros Hp Hpq.
  destruct (ilog2_spec p Hp) as [Hp1 _].
  destruct (ilog2_spec q ltac:(lra)) as [_ Hq2].
  destruct (Z.le_gt_cases (ilog2 p) (ilog2 q)) as [|Hgt]; [assumption|exfalso].
  pose proof (pow2_le (ilog2 q + 1) (ilog2 p) ltac:(lia)). lra.
Qed.

Lemma round_to_grid_monotone (e : Z) (p q : Q) :
  p <= q -> round_to_grid e p <= round_to_grid e q.
Proof.
  intros H. unfold round_to_grid.
  apply Qmult_le_compat_r; [|apply Qlt_le_weak, pow2_pos].
  rewrite <- Zle_Qle. apply round_half_even_monotone.
  apply Qmult_le_compat_r; [assumption|].
  apply Qlt_le_weak, Qinv_lt_0_compat, pow2_pos.
Qed.

(** A power of two at or above the grid step lies on the grid. *)
Lemma round_to_grid_pow2 (e j : Z) : (e <= j)%Z -> round_to_grid e (2 ^ j) == 2 ^ j.
Proof.
  intros H. unfold round_to_grid.
  assert (Hd : 2 ^ j / 2 ^ e == inject_Z (2 ^ (j - e))).
  { rewrite pow2_inject by lia.
    replace j with (j - e + e)%Z at 1 by lia. rewrite pow2_plus.
    field. pose proof (pow2_pos e). lra. }
  rewrite (round_half_even_Qeq _ _ Hd), round_half_even_inject.
  rewrite pow2_inject by lia. rewrite <- pow2_plus.
  replace (j - e + e)%Z with j by lia. reflexivity.
Qed.

Lemma round_to_grid_nonneg (e : Z) (q : Q) : 0 <= q -> 0 <= round_to_grid e q.
Proof.
  intros H. unfold round_to_grid.
  apply Qmult_le_0_compat; [|apply Qlt_le_weak, pow2_pos].
  change 0 with (inject_Z 0). rewrite <- Zle_Qle.
  rewrite <- (round_half_even_inject 0). apply round_half_even_monotone.
  apply Qle_shift_div_l; [apply pow2_pos|].
  change (inject_Z 0) with 0. rewrite Qmult_0_l. exact H.
Qed.

Lemma float32_magnitude_nonneg (q : Q) : 0 <= q -> 0 <= float32_magnitude q.
Proof.
  intros H. unfold float32_magnitude.
  destruct (Qeq_bool q 0); [apply Qle_refl | now apply round_to_grid_nonneg].
Qed.

(** Rounding to single precision keeps the order. *)
Lemma float32_magnitude_monotone (p q : Q) :
  0 <= p -> p <= q -> float32_magnitude p <= float32_magnitude q.
Proof.
  intros Hp Hpq. unfold float32_magnitude at 1.
  destruct (Qeq_bool p 0) eqn:Ep0.
  { apply float32_magnitude_nonneg. lra. }
  apply Qeq_bool_neq in Ep0.
  assert (Hp' : 0 < p).
  { apply Qle_lteq in Hp as [H|H]; [assumption|]. symmetry in H. contradiction. }
  unfold float32_magnitude.
  destruct (Qeq_bool q 0) eqn:Eq0.
  { apply Qeq_bool_eq in Eq0. lra. }
  pose proof (ilog2_monotone p q Hp' Hpq) as Hlog.
  unfold float32_ulp_exponent.
  set (ep := Z.max (-149) (ilog2 p - 23)). set (eq := Z.max (-149) (ilog2 q - 23)).
  destruct (Z.eq_dec ep eq) as [->|Hne].
  - now apply round_to_grid_monotone.
  - assert (Hlt : (ilog2 p < ilog2 q)%Z) by (subst ep eq; lia).
    set (B := 2 ^ ilog2 q).
    destruct (ilog2_spec p Hp') as [_ Hp2].
    destruct (ilog2_spec q ltac:(lra)) as [Hq1 _].
    assert (HpB : p <= B).
    { pose proof (pow2_le (ilog2 p + 1) (ilog2 q) ltac:(lia)). subst B. lra. }
    apply Qle_trans with (round_to_grid ep B);
      [now apply round_to_grid_monotone|].
    unfold B. rewrite (round_to_grid_pow2 ep) by (subst ep eq; lia).
    rewrite <- (round_to_grid_pow2 eq (ilog2 q)) by (subst ep eq; lia).
    now apply round_to_grid_monotone.
Qed.

Lemma float32_magnitude_Qeq (p q : Q) :
  0 <= p -> p == q -> float32_magnitude p == float32_magnitude q.
Proof.
  intros Hp H. apply Qle_antisym; apply float32_magnitude_monotone; lra.
Qed.






End Float32Facts.



Lemma odict_set_fresh {V} (d : list (string * V)) (k : string) (v : V) :
  ImageLogger.odict_contains d k = false ->
  ImageLogger.odict_set d k v = (d ++ [(k, v)])%list.
Proof.
  induction d as [|[k' v'] d IH]; cbn; [reflexivity|].
  destruct (String.eqb k' k); cbn; [discriminate|].
  intros H. now rewrite IH.
Qed.





(** ** Paths *)

Lemma contains_slash_app (a b : string) :
  contains_slash (a +:+ b) = contains_slash a || contains_slash b.
Proof.
  induction a as [|c a IH]; [reflexivity|].
  change (String c a +:+ b) with (String c (a +:+ b)).
  cbn [contains_slash]. rewrite IH. now rewrite orb_assoc.
Qed.

Lemma startswith_contains (s : string) :
  contains_slash s = false -> startswith_slash s = false.
Proof. destruct s; cbn; [reflexivity|]. now intros [H _]%orb_false_iff. Qed.

Lemma endswith_contains (s : string) :
  contains_slash s = false -> endswith_slash s = false.
Proof.
  induction s as [|c s IH]; cbn; [reflexivity|].
  intros [H1 H2]%orb_false_iff. destruct s; [assumption|]. now apply IH.
Qed.


Lemma contains_slash_zeros (k : nat) : contains_slash (zeros k) = false.
Proof. induction k; cbn; auto. Qed.

Lemma contains_slash_uint (u : Decimal.uint) :
  contains_slash (NilEmpty.string_of_uint u) = false.
Proof. induction u; cbn; auto. Qed.

Lemma contains_slash_format_d (z : Z) : contains_slash (format_d z) = false.
Proof.
  unfold format_d, NilZero.string_of_int, NilZero.string_of_uint.
  destruct (Z.to_int z) as [u|u]; destruct u; cbn; auto using contains_slash_uint.
Qed.

Lemma contains_slash_format_05d (z : Z) : contains_slash (format_05d z) = false.
Proof.
  unfold format_05d, zfill. destruct (z <? 0);
    rewrite !contains_slash_app, contains_slash_zeros, contains_slash_format_d;
    reflexivity.
Qed.

Lemma length_app_string (a b : string) :
  String.length (a +:+ b) = (String.length a + String.length b)%nat.
Proof.
  induction a as [|c a IH]; [reflexivity|].
  change (String c a +:+ b) with (String c (a +:+ b)). cbn. now rewrite IH.
Qed.

Lemma length_zeros (k : nat) : String.length (zeros k) = k.
Proof. induction k; cbn; auto. Qed.





Lemma stored_file_relative (n : string) (pl : option Z) :
  (pl = None -> startswith_slash n = false) ->
  startswith_slash (ImageLogger.stored_name n pl +:+ ".png") = false.
Proof.
  destruct pl as [p|]; cbn; [reflexivity|].
  intros H. specialize (H eq_refl). destruct n; [reflexivity|exact H].
Qed.


Lemma entry_name_plain (nm : string) :
  entry_name nm = true -> plain_component nm = true.
Proof.
  unfold entry_name, plain_component.
  intros [H1%negb_true_iff H%negb_true_iff]%andb_true_iff.
  apply orb_false_iff in H as [[H2 _]%orb_false_iff _].
  rewrite H2, (startswith_contains _ H1), (endswith_contains _ H1). reflexivity.
Qed.







(** An enabled logger comes from the one branch of [__init__] that made
    its directory. *)
Lemma init_enabled_inv (nm : string) (kwargs : list (string * value))
      (w w1 : World) (s : ImageLogger.t) :
  ImageLogger.__init__ nm kwargs w = (Return s, w1) ->
  ImageLogger.enabled s = true ->
  ImageLogger.ready s = true /\
  ImageLogger.name s = Some nm /\
  ImageLogger.frame_number s = Some (_frame_number w) /\
  ImageLogger.outdir s =
    Some (os_path_join "stbt-debug" [nm; format_05d (_frame_number w)]) /\
  ImageLogger.images s = Some [] /\
  directories w1 =
  directories
    (add_directory
       (os_path_join "stbt-debug" [nm; format_05d (_frame_number w)]) w) /\
  files w1 = files w.
Proof.
  destruct (get_debug_level w) as [[l|e] w0] eqn:H.
  - pose proof (get_debug_level_spec _ _ _ H) as [Hw _].
    destruct (Z.le_gt_cases l 1) as [Hl|Hl].
    + rewrite (init_level_low nm kwargs w l w0 H Hl).
      intros [= <- <-]. discriminate.
    + destruct (mkdir_p_ok w (os_path_join "stbt-debug"
                                [nm; format_05d (_frame_number w)])) eqn:Hm.
      * rewrite (init_enabled nm kwargs w l w0 H ltac:(lia) Hm).
        intros [= <- <-] _. subst w0. repeat split.
      * rewrite (init_mkdir_failed nm kwargs w l w0 H ltac:(lia) Hm).
        intros [= <- <-]. discriminate.
  - rewrite (init_raises nm kwargs w e w0 H). discriminate.
Qed.

(** Readiness is kept by every call, so an enabled logger that [__init__]
    returned is ready for as long as it is used. *)
Lemma run_call_ready (c : ImageLogger.call) (s s' : ImageLogger.t)
      (w w' : World) (r : outcome unit) :
  ImageLogger.ready s = true ->
  ImageLogger.run_call c (s, w) = (r, (s', w')) ->
  ImageLogger.ready s' = true /\ ImageLogger.outdir s' = ImageLogger.outdir s.
Proof.
  intros Hr. destruct c as [kwargs|nm image pl]; cbn [ImageLogger.run_call].
  - destruct (set_ready s w kwargs Hr) as [d ->]. intros [= _ <- _].
    destruct (ready_inv s Hr) as (n0 & fn & dir & imgs & ps & d0 & ->).
    split; reflexivity.
  - destruct (ready_inv s Hr) as (n0 & fn & dir & imgs & ps & d0 & ->).
    rewrite (imwrite_ready _ w nm image pl dir imgs Hr eq_refl eq_refl).
    destruct (ImageLogger.odict_contains imgs _); intros [= _ <- _];
      destruct pl; split; reflexivity.
Qed.

Lemma run_calls_ready (cs : list ImageLogger.call) :
  forall (s : ImageLogger.t) (w : World),
    ImageLogger.ready s = true ->
    ImageLogger.ready (fst (snd (ImageLogger.run_calls cs (s, w)))) = true /\
    ImageLogger.outdir (fst (snd (ImageLogger.run_calls cs (s, w)))) =
    ImageLogger.outdir s.
Proof.
  induction cs as [|c cs IH]; intros s w Hr; [split; [exact Hr|reflexivity]|].
  cbn [ImageLogger.run_calls].
  destruct (ImageLogger.run_call c (s, w)) as [r [s1 w1]] eqn:E.
  destruct (run_call_ready c s s1 w w1 r Hr E) as [Hr1 Ho1].
  specialize (IH s1 w1 Hr1).
  destruct (ImageLogger.run_calls cs (s1, w1)) as [rs [s2 w2]].
  cbn in *. destruct IH as [H1 H2]. split; [exact H1|congruence].
Qed.




(** * Further properties of the module *)

(** ** The level is resolved once *)

(** X1: once [get_debug_level] has returned, the level is cached: a later
    call returns the same level and changes nothing, whatever has become of
    the configuration in the meantime, even if the lookup would now fail.
    The first call took the level from the configuration exactly when the
    level was still unset. *)
Theorem get_debug_level_reads_configuration_once :
  forall (w w1 : World) (l : Z) (c : option Z),
    get_debug_level w = (Return l, w1) ->
    get_debug_level (set_config_verbose c w1) = (Return l, set_config_verbose c w1) /\
    get_debug_level w1 = (Return l, w1) /\
    (_debug_level w = None -> config_verbose w = Some l) /\
    (forall l0 : Z, _debug_level w = Some l0 -> l = l0 /\ w1 = w).
Proof.
  intros w w1 l c H.
  pose proof (get_debug_level_spec _ _ _ H) as [Hw Hc].
  assert (Hl : _debug_level w1 = Some l) by (subst w1; reflexivity).
  split; [apply get_debug_level_cached; exact Hl|].
  split; [apply get_debug_level_cached; exact Hl|].
  split.
  - intros Hn. destruct Hc as [Hc|[_ Hc]]; [congruence|exact Hc].
  - intros l0 H0. destruct Hc as [Hc|[Hc _]]; [|congruence].
    assert (l = l0) by congruence. subst l0. split; [reflexivity|].
    subst w1. now apply set_debug_level_same.
Qed.

Lemma get_debug_level_reads_configuration_once_witness :
  get_debug_level
    (set_config_verbose None (set_debug_level (Some 1) Sample.fresh_world)) =
  (Return 1, set_config_verbose None (set_debug_level (Some 1) Sample.fresh_world)).
Proof.
  apply (get_debug_level_reads_configuration_once Sample.fresh_world
           (set_debug_level (Some 1) Sample.fresh_world) 1 None eq_refl).
Defined.

(** X2: while the level is unset and the configuration lookup fails, every
    function that reads the level raises [ConfigurationError] and leaves
    the world as it was: [get_debug_level], [debug], [ddebug],
    [ImageLogger(...)] (no instance, no sequence number, no directory) and
    [argparser_add_verbose_argument].  [warn] does not read the level and
    writes its line all the same. *)
Theorem configuration_failure_propagates :
  forall (w : World) (msg nm : string) (kwargs : list (string * value)),
    _debug_level w = None ->
    config_verbose w = None ->
    get_debug_level w = (Raise ConfigurationError, w) /\
    debug msg w = (Raise ConfigurationError, w) /\
    ddebug msg w = (Raise ConfigurationError, w) /\
    ImageLogger.__init__ nm kwargs w = (Raise ConfigurationError, w) /\
    argparser_add_verbose_argument w = (Raise ConfigurationError, w) /\
    warn msg w =
    (Return tt, stderr_write (program_name w +:+ ": warning: " +:+ msg +:+ newline) w).
Proof.
  intros w msg nm kwargs Hl Hc.
  assert (H : get_debug_level w = (Raise ConfigurationError, w)).
  { unfold get_debug_level, get_config_global_verbose. run_py.
    rewrite Hl, Hc. reflexivity. }
  split; [exact H|].
  split; [unfold debug, bind; now rewrite H|].
  split; [unfold ddebug, bind; now rewrite H|].
  split; [now apply init_raises|].
  split; [unfold argparser_add_verbose_argument, bind; now rewrite H|].
  reflexivity.
Qed.

Lemma configuration_failure_propagates_witness :
  ImageLogger.__init__ "match" [] (set_config_verbose None Sample.fresh_world) =
  (Raise ConfigurationError, set_config_verbose None Sample.fresh_world) /\
  debug "hello" (set_config_verbose None Sample.fresh_world) =
  (Raise ConfigurationError, set_config_verbose None Sample.fresh_world).
Proof.
  destruct (configuration_failure_propagates
              (set_config_verbose None Sample.fresh_world) "hello" "match" []
              eq_refl eq_refl) as (_ & H1 & _ & H2 & _).
  split; [exact H2 | exact H1].
Defined.

(** ** Scoped overrides and the configuration *)

(** X3: inside a scoped override [get_debug_level] returns the override
    without looking at the configuration, and nothing of it is cached: the
    world after the scope is the world before it, so a level that was unset
    is unset again. *)
Theorem scoped_override_shadows_configuration :
  forall (level : Z) (w : World),
    scoped_debug_level level get_debug_level w = (Return level, w).
Proof.
  intros level [dl fnum err dirs fs a0 cfg ok].
  reflexivity.
Qed.

(** X4: the module's self-test at [level] runs to its end without reading
    the configuration (a write to the error stream being taken not to
    fail); it writes the warning, then the debug line if the level is above
    0, then the same line again (from [ddebug]) if the level is above 1,
    and leaves the level as it found it.  The three cases the test
    generator yields, run in order, write six lines. *)
Theorem self_test_output :
  forall (level : Z) (w : World),
    let W := program_name w +:+ ": warning: " +:+ test_message +:+ newline in
    let D := program_name w +:+ ": " +:+ test_message +:+ newline in
    (exists w' : World,
        test level w = (Return tt, w') /\
        stderr w' =
          (stderr w ++ [W] ++ (if 0 <? level then [D] else []) ++
           (if 1 <? level then [D] else []))%list /\
        _debug_level w' = _debug_level w /\
        files w' = files w /\ directories w' = directories w) /\
    (exists w' : World,
        run_all test_that_debug_can_write_unicode_strings w = (Return tt, w') /\
        stderr w' = (stderr w ++ [W; W; D; W; D; D])%list /\
        _debug_level w' = _debug_level w).
Proof.
  intros level [dl fnum err dirs fs a0 cfg ok]. cbv zeta. split.
  - unfold test, scoped_debug_level, try_finally, debug, ddebug, warn,
      get_debug_level. run_py. cbn.
    destruct (0 <? level); cbn; destruct (1 <? level); cbn; eexists;
      (split; [reflexivity|]); cbn; rewrite <- ?app_assoc; auto.
  - eexists. split; [reflexivity|]. cbn. rewrite <- !app_assoc. auto.
Qed.

(** ** The namespace of the parser *)

(** X5: after the flag has been registered and one command line parsed,
    the [verbose] entry of the namespace is the global level, however many
    times the flag occurred, not at all included. *)
Theorem namespace_agrees_with_level :
  forall (n : nat) (w w1 : World) (action : IncreaseDebugLevel.t),
    argparser_add_verbose_argument w = (Return action, w1) ->
    let '(_, ns, w') := parse_args action n w1 in
    ns !! "verbose" = _debug_level w'.
Proof.
  intros n w w1 action Hreg.
  unfold argparser_add_verbose_argument, bind, ret in Hreg.
  destruct (get_debug_level w) as [[d|e] w2] eqn:H; [|discriminate].
  injection Hreg as <- <-.
  pose proof (get_debug_level_spec _ _ _ H) as [Hw _].
  unfold parse_args. cbn [IncreaseDebugLevel.dest IncreaseDebugLevel.default].
  destruct n as [|n].
  - cbn. rewrite lookup_singleton_eq. subst w2. reflexivity.
  - pose proof (calls_spec n (IncreaseDebugLevel.mk 0 "verbose" d)
                  {["verbose" := d]} w2) as Hc.
    destruct (IncreaseDebugLevel.calls (S n) _ _ w2) as [[a' ns] w'].
    destruct Hc as (_ & H2 & H3). cbn in H3. now rewrite H2, H3.
Qed.

Lemma namespace_agrees_with_level_witness :
  let '(_, ns, w') :=
    parse_args (IncreaseDebugLevel.mk 0 "verbose" 1) 0
               (set_debug_level (Some 1) Sample.fresh_world) in
  ns !! "verbose" = _debug_level w'.
Proof.
  apply (namespace_agrees_with_level 0 Sample.fresh_world
           (set_debug_level (Some 1) Sample.fresh_world)
           (IncreaseDebugLevel.mk 0 "verbose" 1) eq_refl).
Defined.

(** ** Metadata *)

Lemma lookup_fold_insert_notin (kwargs : list (string * value)) :
  forall (d : gmap string value) (k : string),
    k ∉ map fst kwargs ->
    fold_left (fun m kv => <[fst kv := snd kv]> m) kwargs d !! k = d !! k.
Proof.
  induction kwargs as [|[k0 v0] rest IH]; intros d k Hk; [reflexivity|].
  cbn in *. apply not_elem_of_cons in Hk as [Hne Hk].
  rewrite (IH _ _ Hk). now apply lookup_insert_ne.
Qed.

Lemma lookup_fold_insert_in (kwargs : list (string * value)) :
  forall (d : gmap string value) (k : string) (v : value),
    NoDup (map fst kwargs) -> (k, v) ∈ kwargs ->
    fold_left (fun m kv => <[fst kv := snd kv]> m) kwargs d !! k = Some v.
Proof.
  induction kwargs as [|[k0 v0] rest IH]; intros d k v Hnd Hin.
  - now apply elem_of_nil in Hin.
  - cbn in *. apply NoDup_cons in Hnd as [Hk0 Hnd].
    apply elem_of_cons in Hin as [[= -> ->]|Hin].
    + rewrite (lookup_fold_insert_notin rest _ k0 Hk0). apply lookup_insert_eq.
    + now apply IH.
Qed.

(** X6: [set] on an enabled, initialised logger merges the keyword
    arguments into [data]: every key given now maps to the value given,
    every other key keeps what it had; nothing else of the instance and
    nothing of the world changes, and the call returns normally. *)
Theorem set_merges_metadata :
  forall (s : ImageLogger.t) (w : World) (kwargs : list (string * value))
         (d : gmap string value),
    ImageLogger.ready s = true ->
    ImageLogger.data s = Some d ->
    NoDup (map fst kwargs) ->
    exists d' : gmap string value,
      ImageLogger.set kwargs (s, w) = (Return tt, (ImageLogger.set_data d' s, w)) /\
      (forall k v, (k, v) ∈ kwargs -> d' !! k = Some v) /\
      (forall k, k ∉ map fst kwargs -> d' !! k = d !! k).
Proof.
  intros s w kwargs d Hr Hd Hnd.
  exists (fold_left (fun m kv => <[fst kv := snd kv]> m) kwargs d).
  split.
  - unfold ImageLogger.set. run_py.
    destruct (ready_inv s Hr) as (n0 & fn & dir & imgs & ps & d0 & ->).
    cbn in Hd. injection Hd as ->. cbn.
    now rewrite (store_kwargs_ok kwargs _ w d).
  - split.
    + intros k v Hin. now apply lookup_fold_insert_in.
    + intros k Hk. now apply lookup_fold_insert_notin.
Qed.

Lemma set_merges_metadata_witness :
  exists d' : gmap string value,
    ImageLogger.set [("position", VInt 3); ("result", VBool true)]
      (ImageLogger.set_data {["position" := VInt 1; "region" := VStr "all"]}
         Sample.match_logger, Sample.verbose_world) =
    (Return tt, (ImageLogger.set_data d' Sample.match_logger, Sample.verbose_world)) /\
    d' !! "position" = Some (VInt 3) /\
    d' !! "region" = Some (VStr "all").
Proof.
  destruct (set_merges_metadata
              (ImageLogger.set_data {["position" := VInt 1; "region" := VStr "all"]}
                 Sample.match_logger)
              Sample.verbose_world
              [("position", VInt 3); ("result", VBool true)]
              {["position" := VInt 1; "region" := VStr "all"]}
              eq_refl eq_refl ltac:(refine (bool_decide_unpack _ _); vm_compute; exact I))
    as (d' & H1 & H2 & H3).
  exists d'. split; [exact H1|]. split.
  - apply H2. constructor.
  - rewrite H3; [reflexivity|].
    refine (bool_decide_unpack _ _). vm_compute. exact I.
Defined.

(** X7: an enabled logger comes out of [ImageLogger(name, **kwargs)] with
    its name, the sequence number it took, no image, no pyramid level, and
    metadata that are exactly the keyword arguments. *)
Theorem init_stores_kwargs :
  forall (nm : string) (kwargs : list (string * value)) (w w1 : World)
         (s : ImageLogger.t),
    ImageLogger.__init__ nm kwargs w = (Return s, w1) ->
    ImageLogger.enabled s = true ->
    NoDup (map fst kwargs) ->
    ImageLogger.name s = Some nm /\
    ImageLogger.frame_number s = Some (_frame_number w) /\
    _frame_number w1 = _frame_number w + 1 /\
    ImageLogger.images s = Some [] /\
    ImageLogger.pyramid_levels s = Some ∅ /\
    exists d : gmap string value,
      ImageLogger.data s = Some d /\
      (forall k v, (k, v) ∈ kwargs -> d !! k = Some v) /\
      (forall k, k ∉ map fst kwargs -> d !! k = None).
Proof.
  intros nm kwargs w w1 s Hinit Hen Hnd.
  destruct (get_debug_level w) as [[l|e] w0] eqn:H.
  - pose proof (get_debug_level_spec _ _ _ H) as [Hw _].
    destruct (Z.le_gt_cases l 1) as [Hl|Hl].
    + rewrite (init_level_low nm kwargs w l w0 H Hl) in Hinit.
      injection Hinit as <- <-. discriminate.
    + destruct (mkdir_p_ok w (os_path_join "stbt-debug"
                                [nm; format_05d (_frame_number w)])) eqn:Hm.
      * rewrite (init_enabled nm kwargs w l w0 H ltac:(lia) Hm) in Hinit.
        injection Hinit as <- <-. subst w0. cbn.
        repeat (split; [reflexivity|]).
        eexists. split; [reflexivity|]. split.
        -- intros k v Hin. now apply lookup_fold_insert_in.
        -- intros k Hk. now rewrite lookup_fold_insert_notin.
      * rewrite (init_mkdir_failed nm kwargs w l w0 H ltac:(lia) Hm) in Hinit.
        injection Hinit as <- <-. discriminate.
  - rewrite (init_raises nm kwargs w e w0 H) in Hinit. discriminate.
Qed.

Lemma init_stores_kwargs_witness :
  exists (s : ImageLogger.t) (w1 : World) (d : gmap string value),
    ImageLogger.__init__ "match" [("template", VStr "logo.png")]
      Sample.verbose_world = (Return s, w1) /\
    ImageLogger.frame_number s = Some 7 /\
    ImageLogger.data s = Some d /\
    d !! "template" = Some (VStr "logo.png") /\
    d !! "region" = None.
Proof.
  destruct (init_stores_kwargs "match" [("template", VStr "logo.png")]
              Sample.verbose_world
              (add_directory "stbt-debug/match/00007"
                 (set_class_frame_number 8 Sample.verbose_world))
              (ImageLogger.mk true (Some "match") (Some 7)
                 (Some "stbt-debug/match/00007") (Some []) (Some ∅)
                 (Some {["template" := VStr "logo.png"]}))
              eq_refl eq_refl ltac:(refine (bool_decide_unpack _ _); vm_compute; exact I))
    as (_ & Hfn & _ & _ & _ & d & Hd & Hin & Hout).
  eexists _, _, d. split; [reflexivity|]. split; [exact Hfn|].
  split; [exact Hd|]. split.
  - apply Hin. constructor.
  - apply Hout. refine (bool_decide_unpack _ _). vm_compute. exact I.
Defined.

(** ** What the methods leave alone *)

Lemma store_kwargs_only_data (kwargs : list (string * value)) :
  forall (s s' : ImageLogger.t) (w w' : World) (r : outcome unit),
    ImageLogger.store_kwargs kwargs (s, w) = (r, (s', w')) ->
    w' = w /\
    ImageLogger.enabled s' = ImageLogger.enabled s /\
    ImageLogger.name s' = ImageLogger.name s /\
    ImageLogger.frame_number s' = ImageLogger.frame_number s /\
    ImageLogger.outdir s' = ImageLogger.outdir s /\
    ImageLogger.images s' = ImageLogger.images s /\
    ImageLogger.pyramid_levels s' = ImageLogger.pyramid_levels s.
Proof.
  induction kwargs as [|kv rest IH]; intros s s' w w' r.
  - cbn. intros [= _ <- <-]. repeat split.
  - cbn [ImageLogger.store_kwargs]. unfold ImageLogger.data_setitem. run_py.
    destruct (ImageLogger.data s) as [d|].
    + intros H. apply IH in H. cbn in H. exact H.
    + intros [= _ <- <-]. repeat split.
Qed.

(** No method assigns [enabled], [name], [frame_number] or [outdir]. *)
Lemma run_call_identity (c : ImageLogger.call) (s s' : ImageLogger.t)
      (w w' : World) (r : outcome unit) :
  ImageLogger.run_call c (s, w) = (r, (s', w')) ->
  ImageLogger.enabled s' = ImageLogger.enabled s /\
  ImageLogger.name s' = ImageLogger.name s /\
  ImageLogger.frame_number s' = ImageLogger.frame_number s /\
  ImageLogger.outdir s' = ImageLogger.outdir s.
Proof.
  destruct c as [kwargs|nm image pl]; cbn [ImageLogger.run_call].
  - unfold ImageLogger.set. run_py. destruct (ImageLogger.enabled s) eqn:E; cbn.
    + intros H. apply store_kwargs_only_data in H as (_ & H1 & H2 & H3 & H4 & _).
      rewrite <- E. auto.
    + intros [= _ <- <-]. auto.
  - intros H.
    destruct (imwrite_cases _ _ _ _ _ _ _ _ H)
      as [(_ & H1 & H2 & H3 & H4 & _)|(dir & imgs & _ & _ & _ & _ & _ & -> & _)];
      [auto|].
    pose proof (kept_image_identity s pl
                  (ImageLogger.odict_set imgs (ImageLogger.stored_name nm pl)
                     (ImageLogger.persisted image))) as K.
    cbv zeta in K. destruct K as (K1 & K2 & K3 & K4 & _). auto.
Qed.

(** X8: whatever calls are made on a logger, in whatever state, and
    whether they return or raise, its [enabled] flag, its name, its
    sequence number and its directory stay what [__init__] made them: an
    enabled logger is never switched off by [set] or [imwrite], a disabled
    one never on. *)
Theorem logger_identity_is_stable :
  forall (cs : list ImageLogger.call) (s : ImageLogger.t) (w : World),
    let s' := fst (snd (ImageLogger.run_calls cs (s, w))) in
    ImageLogger.enabled s' = ImageLogger.enabled s /\
    ImageLogger.name s' = ImageLogger.name s /\
    ImageLogger.frame_number s' = ImageLogger.frame_number s /\
    ImageLogger.outdir s' = ImageLogger.outdir s.
Proof.
  induction cs as [|c cs IH]; intros s w; [cbn; auto|].
  cbn [ImageLogger.run_calls].
  destruct (ImageLogger.run_call c (s, w)) as [r [s1 w1]] eqn:E.
  apply run_call_identity in E as (E1 & E2 & E3 & E4).
  specialize (IH s1 w1). cbv zeta in IH.
  destruct (ImageLogger.run_calls cs (s1, w1)) as [rs [s2 w2]].
  cbn in *. destruct IH as (I1 & I2 & I3 & I4).
  repeat split; congruence.
Qed.

(** The world after a call is the world before it, unless the call is an
    [imwrite] that returned normally on an enabled logger: then it is the
    world that [cv2.imwrite] leaves. *)
Lemma run_call_footprint (c : ImageLogger.call) (s s' : ImageLogger.t)
      (w w' : World) (r : outcome unit) :
  ImageLogger.run_call c (s, w) = (r, (s', w')) ->
  (w' = w /\
   ((exists kwargs, c = ImageLogger.Set_ kwargs) \/
    is_return r = false \/ ImageLogger.enabled s = false)) \/
  exists (nm : string) (image : Image) (pl : option Z) (dir : string),
    c = ImageLogger.Imwrite nm image pl /\ r = Return tt /\
    ImageLogger.enabled s = true /\ ImageLogger.outdir s = Some dir /\
    w' = snd (cv2_imwrite
                (os_path_join dir [ImageLogger.stored_name nm pl +:+ ".png"])
                (ImageLogger.persisted image) w).
Proof.
  destruct c as [kwargs|nm image pl]; cbn [ImageLogger.run_call].
  - unfold ImageLogger.set. run_py. destruct (ImageLogger.enabled s) eqn:E; cbn.
    + intros H. apply store_kwargs_only_data in H as (-> & _). left. eauto.
    + intros [= _ _ <-]. left. eauto.
  - intros H.
    destruct (imwrite_cases _ _ _ _ _ _ _ _ H)
      as [(-> & _ & _ & _ & _ & _ & Hr)
         |(dir & imgs & -> & Hen & Hd & _ & _ & _ & ->)].
    + left. split; [reflexivity|]. right.
      destruct r as [[]|e]; [right; now apply Hr|left; reflexivity].
    + right. now exists nm, image, pl, dir.
Qed.



(** X10: [set] and [imwrite] do not read the verbosity level: run in a
    world where [_debug_level] has been reassigned, a call has the same
    outcome, leaves the same instance and makes the same change to the
    world.  A logger enabled at its creation goes on writing after the
    level has dropped. *)
Theorem calls_ignore_the_level :
  forall (c : ImageLogger.call) (s : ImageLogger.t) (w : World) (l : option Z),
    ImageLogger.run_call c (s, set_debug_level l w) =
    (let '(r, (s', w')) := ImageLogger.run_call c (s, w) in
     (r, (s', set_debug_level l w'))).
Proof.
  intros c s w l.
  destruct c as [kwargs|nm image pl]; cbn [ImageLogger.run_call].
  - unfold ImageLogger.set. run_py. destruct (ImageLogger.enabled s); cbn;
      [|reflexivity].
    revert s. induction kwargs as [|kv rest IH]; intros s; [reflexivity|].
    cbn [ImageLogger.store_kwargs]. unfold ImageLogger.data_setitem. run_py.
    destruct (ImageLogger.data s); [apply IH | reflexivity].
  - unfold ImageLogger.imwrite. run_py.
    pose proof (cv2_imwrite_level l) as HL. pose proof cv2_imwrite_returns as HW.
    revert HL HW. generalize cv2_imwrite. intros W HL HW.
    destruct s as [[] n0 fn od im ps d]; cbn; [|reflexivity].
    destruct pl as [p|], ps as [ps|], im as [im|]; cbn; try reflexivity;
      destruct (ImageLogger.odict_contains im _); cbn; try reflexivity;
      (destruct od as [od|]; [|reflexivity]);
      match goal with
      | |- context [W ?path ?img w] =>
          rewrite (HL path img w);
          destruct (HW path img w) as [b Hb]; rewrite Hb
      end; reflexivity.
Qed.

(** ** Images are kept, in order, under distinct names *)

Lemma odict_contains_false (V : Type) (d : list (string * V)) (k : string) :
  ImageLogger.odict_contains d k = false -> k ∉ map fst d.
Proof.
  induction d as [|[k' v'] d IH]; cbn; [intros _; apply not_elem_of_nil|].
  destruct (String.eqb_spec k' k) as [->|Hne]; cbn; [discriminate|].
  intros H. apply not_elem_of_cons. split; [congruence|now apply IH].
Qed.

Lemma run_call_images (c : ImageLogger.call) (s s' : ImageLogger.t)
      (w w' : World) (r : outcome unit) (imgs : list (string * Image)) :
  ImageLogger.ready s = true ->
  ImageLogger.images s = Some imgs ->
  NoDup (map fst imgs) ->
  ImageLogger.run_call c (s, w) = (r, (s', w')) ->
  exists imgs' : list (string * Image),
    ImageLogger.images s' = Some imgs' /\
    imgs `prefix_of` imgs' /\ NoDup (map fst imgs').
Proof.
  intros Hr Hi Hnd. destruct c as [kwargs|nm image pl]; cbn [ImageLogger.run_call].
  - destruct (set_ready s w kwargs Hr) as [d ->]. intros [= _ <- _].
    exists imgs. split; [|split; [reflexivity|assumption]].
    destruct s; exact Hi.
  - destruct (ready_inv s Hr) as (n0 & fn & dir & imgs0 & ps & d0 & ->).
    cbn in Hi. injection Hi as ->.
    rewrite (imwrite_ready _ w nm image pl dir imgs Hr eq_refl eq_refl).
    destruct (ImageLogger.odict_contains imgs _) eqn:E; intros [= _ <- _].
    + exists imgs. split; [destruct pl; reflexivity|].
      split; [reflexivity|assumption].
    + exists (imgs ++ [(ImageLogger.stored_name nm pl,
                        ImageLogger.persisted image)])%list.
      rewrite <- (odict_set_fresh _ _ _ E).
      split; [destruct pl; reflexivity|].
      rewrite (odict_set_fresh _ _ _ E).
      split; [now apply prefix_app_r|].
      rewrite map_app. apply NoDup_app. split; [assumption|]. split.
      * intros k Hk Hk'. cbn in Hk'. apply list_elem_of_singleton in Hk' as ->.
        now apply (odict_contains_false _ _ _ E).
      * cbn. apply NoDup_singleton.
Qed.

(** X11: on an enabled, initialised logger whose image names are distinct,
    any series of calls, failing ones included, leaves the images stored so
    far in place, in their order and with their contents, adds new ones
    only at the end, and keeps the names distinct: no image is ever
    replaced or dropped. *)
Theorem images_only_grow :
  forall (cs : list ImageLogger.call) (s : ImageLogger.t) (w : World)
         (imgs : list (string * Image)),
    ImageLogger.ready s = true ->
    ImageLogger.images s = Some imgs ->
    NoDup (map fst imgs) ->
    exists imgs' : list (string * Image),
      ImageLogger.images (fst (snd (ImageLogger.run_calls cs (s, w)))) = Some imgs' /\
      imgs `prefix_of` imgs' /\ NoDup (map fst imgs').
Proof.
  induction cs as [|c cs IH]; intros s w imgs Hr Hi Hnd.
  - exists imgs. split; [exact Hi|]. split; [reflexivity|assumption].
  - cbn [ImageLogger.run_calls].
    destruct (ImageLogger.run_call c (s, w)) as [r [s1 w1]] eqn:E.
    destruct (run_call_images _ _ _ _ _ _ _ Hr Hi Hnd E) as (imgs1 & H1 & Hp & Hn1).
    destruct (run_call_ready _ _ _ _ _ _ Hr E) as [Hr1 _].
    destruct (IH s1 w1 imgs1 Hr1 H1 Hn1) as (imgs2 & H2 & Hp2 & Hn2).
    destruct (ImageLogger.run_calls cs (s1, w1)) as [rs [s2 w2]].
    exists imgs2. split; [exact H2|]. split; [|assumption].
    now transitivity imgs1.
Qed.

Lemma images_only_grow_witness :
  exists imgs' : list (string * Image),
    ImageLogger.images
      (fst (snd (ImageLogger.run_calls
                   [ImageLogger.Imwrite "source" Sample.frame None;
                    ImageLogger.Imwrite "source" Sample.heatmap None;
                    ImageLogger.Imwrite "heat" Sample.heatmap (Some 1)]
                   (Sample.match_logger, Sample.verbose_world)))) = Some imgs' /\
    [] `prefix_of` imgs' /\ NoDup (map fst imgs').
Proof.
  apply (images_only_grow _ Sample.match_logger Sample.verbose_world []
           eq_refl eq_refl).
  apply NoDup_nil_2.
Defined.

(** X12: [imwrite] notes the pyramid level before it looks for a duplicate:
    on an enabled, initialised logger a call with level [N] leaves [N] in
    [pyramid_levels] beside the levels already there, also when the call
    then raises [ValueError]; a call without a level leaves the set as it
    is. *)
Theorem pyramid_level_is_noted_first :
  forall (s : ImageLogger.t) (w : World) (nm : string) (image : Image)
         (pl : option Z) (ps : gset Z),
    ImageLogger.ready s = true ->
    ImageLogger.pyramid_levels s = Some ps ->
    ImageLogger.pyramid_levels
      (fst (snd (ImageLogger.imwrite nm image pl (s, w)))) =
    Some (match pl with Some N => {[N]} ∪ ps | None => ps end) /\
    (forall N : Z,
        pl = Some N ->
        ImageLogger.has_image s (ImageLogger.stored_name nm pl) = true ->
        exists s' : ImageLogger.t,
          ImageLogger.imwrite nm image pl (s, w) =
          (Raise (ValueError (ImageLogger.duplicate_message
                                (ImageLogger.stored_name nm pl))), (s', w)) /\
          ImageLogger.pyramid_levels s' = Some ({[N]} ∪ ps)).
Proof.
  intros s w nm image pl ps Hr Hp.
  destruct (ready_inv s Hr) as (n0 & fn & dir & imgs & ps0 & d0 & ->).
  cbn in Hp. injection Hp as ->.
  rewrite (imwrite_ready _ w nm image pl dir imgs Hr eq_refl eq_refl).
  split.
  - destruct (ImageLogger.odict_contains imgs _), pl; reflexivity.
  - intros N -> Hd. unfold ImageLogger.has_image in Hd.
    cbn [ImageLogger.images] in Hd. rewrite Hd. eexists. split; reflexivity.
Qed.

Lemma pyramid_level_is_noted_first_witness :
  ImageLogger.pyramid_levels
    (fst (snd (ImageLogger.imwrite "diff" Sample.frame (Some 1)
                 (ImageLogger.set_images [("level1-diff", Sample.frame)]
                    Sample.match_logger, Sample.verbose_world)))) =
  Some ({[1]} ∪ ∅).
Proof.
  apply (pyramid_level_is_noted_first
           (ImageLogger.set_images [("level1-diff", Sample.frame)] Sample.match_logger)
           Sample.verbose_world "diff" Sample.frame (Some 1) ∅ eq_refl eq_refl).
Defined.

(** ** The sequence number in the directory name *)

Lemma uint_of_string_zeros (k : nat) (s : string) (u : Decimal.uint) :
  NilEmpty.uint_of_string s = Some u ->
  exists u' : Decimal.uint,
    NilEmpty.uint_of_string (zeros k +:+ s) = Some u' /\
    Z.of_uint u' = Z.of_uint u.
Proof.
  intros H. induction k as [|k (u' & H1 & H2)]; [now exists u|].
  exists (Decimal.D0 u'). split; [|exact H2].
  change (zeros (S k) +:+ s) with (String "0" (zeros k +:+ s)).
  cbn [NilEmpty.uint_of_string]. rewrite H1. reflexivity.
Qed.

Lemma int_of_str_digits (s : string) (u : Decimal.uint) :
  NilEmpty.uint_of_string s = Some u -> int_of_str s = Some (Z.of_uint u).
Proof.
  intros H. destruct s as [|a r]; [cbn in *; now injection H as <-|].
  assert (Ha : a <> "-"%char).
  { intros ->. cbn in H. destruct (NilEmpty.uint_of_string r); discriminate. }
  unfold int_of_str.
  destruct a as [[] [] [] [] [] [] [] []]; try (now rewrite H);
    contradiction Ha; reflexivity.
Qed.

Lemma format_d_digits (n : Z) :
  0 <= n ->
  exists u : Decimal.uint,
    NilEmpty.uint_of_string (format_d n) = Some u /\ Z.of_uint u = n.
Proof.
  intros Hn. unfold format_d.
  destruct n as [|p|p]; [| |lia].
  - exists Decimal.zero. split; reflexivity.
  - cbn [Z.to_int NilZero.string_of_int].
    exists (Pos.to_uint p). split.
    + unfold NilZero.string_of_uint.
      pose proof (DecimalPos.Unsigned.to_uint_nonnil p) as Hnn.
      destruct (Pos.to_uint p) eqn:E; try contradiction;
        rewrite <- E; apply NilEmpty.usu.
    + unfold Z.of_uint. now rewrite DecimalPos.Unsigned.of_to.
Qed.

(** ["%05d" % n] reads back as [n]. *)
Lemma int_of_str_format_05d (n : Z) : int_of_str (format_05d n) = Some n.
Proof.
  unfold format_05d, zfill. destruct (Z.ltb_spec n 0) as [Hneg|Hpos].
  - destruct (format_d_digits (- n) ltac:(lia)) as (u & Hu & Hz).
    destruct (uint_of_string_zeros (4 - String.length (format_d (- n))) _ _ Hu)
      as (u' & Hu' & Hz').
    change ("-" +:+ ?x) with (String "-" x). cbn [int_of_str].
    rewrite Hu'. cbn. f_equal. lia.
  - destruct (format_d_digits n Hpos) as (u & Hu & Hz).
    destruct (uint_of_string_zeros (5 - String.length (format_d n)) _ _ Hu)
      as (u' & Hu' & Hz').
    rewrite (int_of_str_digits _ _ Hu'). f_equal. lia.
Qed.

Lemma basename_no_slash (s : string) :
  contains_slash s = false -> os_path_basename s = s.
Proof.
  destruct s as [|c r]; [reflexivity|]. cbn.
  intros [H1 H2]%orb_false_iff. now rewrite H2, H1.
Qed.

Lemma basename_after_slash (q f : string) :
  contains_slash f = false -> os_path_basename (q +:+ "/" +:+ f) = f.
Proof.
  intros Hf. induction q as [|c q IH].
  - change ("" +:+ "/" +:+ f) with (String "/" f). cbn. now rewrite Hf.
  - change (String c q +:+ "/" +:+ f) with (String c (q +:+ "/" +:+ f)).
    cbn [os_path_basename].
    assert (Hc : contains_slash (q +:+ "/" +:+ f) = true).
    { rewrite contains_slash_app.
      change ("/" +:+ f) with (String "/" f). cbn. apply orb_true_r. }
    rewrite Hc. exact IH.
Qed.

Lemma endswith_slash_split (p : string) :
  endswith_slash p = true -> exists q : string, p = q +:+ "/".
Proof.
  induction p as [|c p IH]; [discriminate|]. cbn.
  destruct p as [|c' p'].
  - intros H. apply Ascii.eqb_eq in H as ->. now exists "".
  - intros H. destruct (IH H) as [q Hq]. exists (String c q).
    change (String c q +:+ "/") with (String c (q +:+ "/")). now rewrite <- Hq.
Qed.

Lemma append_assoc (a b c : string) : (a +:+ b) +:+ c = a +:+ b +:+ c.
Proof.
  induction a as [|x a IH]; [reflexivity|].
  change (String x a +:+ b) with (String x (a +:+ b)).
  change (String x (a +:+ b) +:+ c) with (String x ((a +:+ b) +:+ c)).
  now rewrite IH.
Qed.

Lemma basename_join2 (p f : string) :
  contains_slash f = false -> os_path_basename (join2 p f) = f.
Proof.
  intros Hf. unfold join2. rewrite (startswith_contains _ Hf).
  destruct (String.eqb_spec p "") as [->|Hp]; cbn [orb].
  - now apply basename_no_slash.
  - destruct (endswith_slash p) eqn:E.
    + destruct (endswith_slash_split _ E) as [q ->].
      rewrite append_assoc. now apply basename_after_slash.
    + now apply basename_after_slash.
Qed.

(** X13: the sequence number can be read back from a logger's directory:
    the last component of the directory of an enabled logger, whatever its
    name, is its sequence number in decimal, at least five characters
    long, and parses to that number. *)
Theorem outdir_encodes_sequence_number :
  forall (nm : string) (kwargs : list (string * value)) (w w1 : World)
         (s : ImageLogger.t),
    ImageLogger.__init__ nm kwargs w = (Return s, w1) ->
    ImageLogger.enabled s = true ->
    exists dir : string,
      ImageLogger.outdir s = Some dir /\
      os_path_basename dir = format_05d (_frame_number w) /\
      int_of_str (os_path_basename dir) = Some (_frame_number w) /\
      ImageLogger.frame_number s = Some (_frame_number w) /\
      (0 <= _frame_number w -> (5 <= String.length (os_path_basename dir))%nat).
Proof.
  intros nm kwargs w w1 s Hinit Hen.
  destruct (init_enabled_inv nm kwargs w w1 s Hinit Hen)
    as (_ & _ & Hfn & Hod & _).
  eexists. split; [exact Hod|].
  assert (Hb : os_path_basename
                 (os_path_join "stbt-debug" [nm; format_05d (_frame_number w)]) =
               format_05d (_frame_number w)).
  { unfold os_path_join. cbn [fold_left].
    apply basename_join2, contains_slash_format_05d. }
  rewrite Hb. split; [reflexivity|]. split; [apply int_of_str_format_05d|].
  split; [exact Hfn|].
  intros Hpos. unfold format_05d, zfill.
  destruct (Z.ltb_spec (_frame_number w) 0); [lia|].
  rewrite length_app_string, length_zeros. lia.
Qed.

Lemma outdir_encodes_sequence_number_witness :
  exists dir : string,
    ImageLogger.outdir Sample.match_logger = Some dir /\
    os_path_basename dir = "00007" /\
    int_of_str (os_path_basename dir) = Some 7.
Proof.
  destruct (outdir_encodes_sequence_number "match" [] Sample.verbose_world
              (add_directory "stbt-debug/match/00007"
                 (set_class_frame_number 8 Sample.verbose_world))
              Sample.match_logger eq_refl eq_refl)
    as (dir & H1 & H2 & H3 & _).
  exists dir. auto.
Defined.

(** ** A process as a whole *)

(** The four ways [__init__] can go, with the world each leaves. *)
Lemma init_cases (nm : string) (kwargs : list (string * value)) (w w' : World)
      (r : outcome ImageLogger.t) :
  ImageLogger.__init__ nm kwargs w = (r, w') ->
  let dir := os_path_join "stbt-debug" [nm; format_05d (_frame_number w)] in
  (exists e, r = Raise e /\ w' = w) \/
  (exists l, r = Return ImageLogger.blank /\ w' = set_debug_level (Some l) w) \/
  (exists l s,
      r = Return s /\ ImageLogger.enabled s = false /\
      w' = stderr_write
             (program_name w +:+ ": warning: " +:+
              ImageLogger.failed_directory_warning dir +:+ newline)
             (set_class_frame_number (_frame_number w + 1)
                (set_debug_level (Some l) w))) \/
  (exists l s,
      r = Return s /\ ImageLogger.enabled s = true /\
      ImageLogger.ready s = true /\
      ImageLogger.name s = Some nm /\
      ImageLogger.frame_number s = Some (_frame_number w) /\
      ImageLogger.outdir s = Some dir /\
      w' = add_directory dir
             (set_class_frame_number (_frame_number w + 1)
                (set_debug_level (Some l) w))).
Proof.
  intros Hinit dir.
  destruct (get_debug_level w) as [[l|e] w0] eqn:H.
  - pose proof (get_debug_level_spec _ _ _ H) as [Hw _].
    destruct (Z.le_gt_cases l 1) as [Hl|Hl].
    + rewrite (init_level_low nm kwargs w l w0 H Hl) in Hinit.
      injection Hinit as <- <-. right; left. now exists l.
    + destruct (mkdir_p_ok w dir) eqn:Hm.
      * rewrite (init_enabled nm kwargs w l w0 H ltac:(lia) Hm) in Hinit.
        injection Hinit as <- <-. subst w0. right; right; right.
        eexists l, _. repeat split.
      * rewrite (init_mkdir_failed nm kwargs w l w0 H ltac:(lia) Hm) in Hinit.
        injection Hinit as <- <-. subst w0. right; right; left.
        eexists l, _. repeat split.
  - rewrite (init_raises nm kwargs w e w0 H) in Hinit.
    injection Hinit as <- <-. apply get_debug_level_raise in H as [_ ->].
    left. now exists e.
Qed.

Lemma debug_world (msg : string) (w : World) :
  let w' := snd (debug msg w) in
  directories w' = directories w /\ files w' = files w /\
  _frame_number w' = _frame_number w /\
  stderr w `prefix_of` stderr w'.
Proof.
  unfold debug. run_py.
  destruct (get_debug_level w) as [[l|e] w1] eqn:H.
  - apply get_debug_level_spec in H as [-> _].
    destruct (0 <? l); cbn; repeat split; try reflexivity.
    now apply prefix_app_r.
  - apply get_debug_level_raise in H as [_ ->]. cbn. repeat split; reflexivity.
Qed.

(** No step of a process removes a directory. *)
Lemma step_keeps_directories (p : Process.t) (st : Process.step) :
  directories (Process.world p) ⊆
  directories (Process.world (Process.run_step p st)).
Proof.
  destruct st as [nm kwargs|i c|l|msg]; cbn.
  - destruct (ImageLogger.__init__ nm kwargs (Process.world p)) as [r w'] eqn:E.
    destruct (init_cases _ _ _ _ _ E)
      as [(e & -> & ->)|[(l & -> & ->)|[(l & s & -> & Hen & ->)
                                       |(l & s & -> & Hen & _ & _ & _ & _ & ->)]]];
      cbn; set_solver.
  - destruct (Process.loggers p !! i) as [s|] eqn:Hl; [|reflexivity].
    destruct (ImageLogger.run_call c (s, Process.world p)) as [r [s' w']] eqn:E.
    cbn.
    destruct (run_call_footprint _ _ _ _ _ _ E)
      as [(-> & _)|(nm & image & pl & dir & _ & _ & _ & _ & ->)]; [reflexivity|].
    destruct (cv2_imwrite_world
                (os_path_join dir [ImageLogger.stored_name nm pl +:+ ".png"])
                (ImageLogger.persisted image) (Process.world p))
      as (_ & _ & _ & _ & -> & _).
    reflexivity.
  - reflexivity.
  - destruct (debug_world msg (Process.world p)) as (Hd & _). cbv zeta in Hd.
    now rewrite Hd.
Qed.

Lemma housed_mono (w w' : World) (s : ImageLogger.t) :
  directories w ⊆ directories w' -> Process.housed w s -> Process.housed w' s.
Proof.
  intros Hsub H Hen. destruct (H Hen) as (dir & Ho & Hr & Hd).
  exists dir. split; [exact Ho|]. split.
  - now apply (walk_mono w w' _ Hsub).
  - now apply (is_directory_mono w w' _ Hsub).
Qed.

Lemma housed_step (p : Process.t) (st : Process.step) :
  Forall (Process.housed (Process.world p)) (Process.loggers p) ->
  Forall (Process.housed (Process.world (Process.run_step p st)))
         (Process.loggers (Process.run_step p st)).
Proof.
  intros Hp.
  assert (Hold : Forall (Process.housed (Process.world (Process.run_step p st)))
                        (Process.loggers p)).
  { eapply Forall_impl; [exact Hp|]. intros s.
    apply housed_mono, step_keeps_directories. }
  destruct st as [nm kwargs|i c|l|msg]; cbn in *; try assumption.
  - destruct (ImageLogger.__init__ nm kwargs (Process.world p)) as [r w'] eqn:E.
    destruct (init_cases _ _ _ _ _ E)
      as [(e & -> & ->)|[(l & -> & ->)|[(l & s & -> & Hen & ->)
                                       |(l & s & -> & Hen & _ & _ & _ & Ho & ->)]]];
      cbn in *; try assumption; apply Forall_app; (split; [assumption|]);
      (constructor; [|constructor]).
    + intros H. discriminate H.
    + intros H. congruence.
    + intros _. eexists. split; [exact Ho|].
      apply (resolve_made _ (set_class_frame_number
                               (_frame_number (Process.world p) + 1)
                               (set_debug_level (Some l) (Process.world p)))).
      reflexivity.
  - destruct (Process.loggers p !! i) as [s|] eqn:Hl; [|assumption].
    destruct (ImageLogger.run_call c (s, Process.world p)) as [r [s' w']] eqn:E.
    pose proof (run_call_identity _ _ _ _ _ _ E) as (He & _ & _ & Ho). cbn in *.
    apply Forall_insert; [assumption|].
    rewrite Forall_forall in Hold.
    specialize (Hold s (list_elem_of_lookup_2 _ _ _ Hl)).
    intros Hen. rewrite He in Hen. destruct (Hold Hen) as (dir & H1 & H2).
    exists dir. split; [congruence|exact H2].
Qed.

Lemma housed_run (steps : list Process.step) :
  forall p : Process.t,
    Forall (Process.housed (Process.world p)) (Process.loggers p) ->
    Forall (Process.housed (Process.world (Process.run steps p)))
           (Process.loggers (Process.run steps p)).
Proof.
  induction steps as [|st steps IH]; intros p H; [exact H|].
  cbn. apply IH. now apply housed_step.
Qed.

(** X14: an enabled logger always has a place to write to: at any point of
    a run that started without loggers, the path in [outdir] of every
    enabled logger leads to a directory that exists.  [__init__] made it,
    with the directories above it, and no later creation, method call,
    level assignment or debug message takes a directory away. *)
Theorem enabled_loggers_keep_their_directory :
  forall (w : World) (steps : list Process.step) (i : nat) (s : ImageLogger.t),
    let p := Process.run steps (Process.start w) in
    Process.loggers p !! i = Some s ->
    ImageLogger.enabled s = true ->
    exists dir : string,
      ImageLogger.outdir s = Some dir /\
      resolve (Process.world p) dir = Some (destination dir) /\
      is_directory (Process.world p) (destination dir) = true.
Proof.
  intros w steps i s p Hi Hen.
  assert (Hh : Forall (Process.housed (Process.world p)) (Process.loggers p)).
  { apply housed_run. constructor. }
  rewrite Forall_forall in Hh.
  exact (Hh _ (list_elem_of_lookup_2 _ _ _ Hi) Hen).
Qed.

Lemma enabled_loggers_keep_their_directory_witness :
  is_directory
    (Process.world
       (Process.run [Process.Create "match" [];
                     Process.CallOn 0 (ImageLogger.Imwrite "source" Sample.frame None);
                     Process.Create "ocr" []]
                    (Process.start Sample.verbose_world)))
    (false, ["stbt-debug"; "match"; "00007"]) = true.
Proof.
  destruct (enabled_loggers_keep_their_directory Sample.verbose_world
              [Process.Create "match" [];
               Process.CallOn 0 (ImageLogger.Imwrite "source" Sample.frame None);
               Process.Create "ocr" []]
              0%nat
              (ImageLogger.set_images [("source", Sample.frame)] Sample.match_logger)
              ltac:(vm_compute; reflexivity) eq_refl)
    as (dir & Ho & _ & Hd).
  injection Ho as <-. exact Hd.
Defined.

Lemma format_05d_injective (a b : Z) : format_05d a = format_05d b -> a = b.
Proof.
  intros H. apply (f_equal int_of_str) in H.
  rewrite !int_of_str_format_05d in H. now injection H.
Qed.

Lemma outdir_injective (nm1 nm2 : string) (a b : Z) :
  os_path_join "stbt-debug" [nm1; format_05d a] =
  os_path_join "stbt-debug" [nm2; format_05d b] -> a = b.
Proof.
  intros H. apply (f_equal os_path_basename) in H.
  unfold os_path_join in H. cbn [fold_left] in H.
  rewrite !basename_join2 in H by apply contains_slash_format_05d.
  now apply format_05d_injective.
Qed.

Lemma placed_step (p : Process.t) (st : Process.step) :
  Forall Process.placed (Process.loggers p) ->
  Forall Process.placed (Process.loggers (Process.run_step p st)).
Proof.
  intros Hp. destruct st as [nm kwargs|i c|l|msg]; cbn; try assumption.
  - destruct (ImageLogger.__init__ nm kwargs (Process.world p)) as [r w'] eqn:E.
    destruct (init_cases _ _ _ _ _ E)
      as [(e & -> & ->)|[(l & -> & ->)|[(l & s & -> & Hen & ->)
                                       |(l & s & -> & Hen & _ & Hn & Hf & Ho & ->)]]];
      cbn; try assumption; apply Forall_app; (split; [assumption|]);
      (constructor; [|constructor]).
    + intros H. discriminate H.
    + intros H. congruence.
    + intros _. exists nm, (_frame_number (Process.world p)). auto.
  - destruct (Process.loggers p !! i) as [s|] eqn:Hl; [|assumption].
    destruct (ImageLogger.run_call c (s, Process.world p)) as [r [s' w']] eqn:E.
    pose proof (run_call_identity _ _ _ _ _ _ E) as (He & Hn & Hf & Ho). cbn.
    apply Forall_insert; [assumption|].
    rewrite Forall_forall in Hp.
    specialize (Hp s (list_elem_of_lookup_2 _ _ _ Hl)).
    intros Hen. rewrite He in Hen. destruct (Hp Hen) as (nm & n & H1 & H2 & H3).
    exists nm, n. repeat split; congruence.
Qed.

Lemma placed_run (steps : list Process.step) :
  forall p : Process.t,
    Forall Process.placed (Process.loggers p) ->
    Forall Process.placed (Process.loggers (Process.run steps p)).
Proof.
  induction steps as [|st steps IH]; intros p H; [exact H|].
  cbn. apply IH. now apply placed_step.
Qed.

(** X16: no two loggers of a process share an output directory: in any
    run that started without loggers, two different enabled loggers have
    different directories, whether their names are the same or not. *)
Theorem loggers_never_share_a_directory :
  forall (w : World) (steps : list Process.step) (i j : nat)
         (first second : ImageLogger.t),
    let p := Process.run steps (Process.start w) in
    (i < j)%nat ->
    Process.loggers p !! i = Some first ->
    Process.loggers p !! j = Some second ->
    ImageLogger.enabled first = true ->
    ImageLogger.enabled second = true ->
    ImageLogger.outdir first <> ImageLogger.outdir second /\
    is_Some (ImageLogger.outdir first) /\ is_Some (ImageLogger.outdir second).
Proof.
  intros w steps i j first second p Hij Hi Hj He1 He2.
  assert (Hpl : Forall Process.placed (Process.loggers p)).
  { apply placed_run. constructor. }
  assert (Hs : StronglySorted Z.lt (Process.sequence_numbers p)).
  { apply (numbers_in_order_run steps (Process.start w)). split; constructor. }
  rewrite Forall_forall in Hpl.
  destruct (Hpl _ (list_elem_of_lookup_2 _ _ _ Hi) He1) as (nm1 & a & _ & Ha & Ho1).
  destruct (Hpl _ (list_elem_of_lookup_2 _ _ _ Hj) He2) as (nm2 & b & _ & Hb & Ho2).
  pose proof (sorted_omap_pairwise _ _ Hs i j first second a b Hij Hi Hj Ha Hb) as Hlt.
  rewrite Ho1, Ho2. split; [|split; eexists; reflexivity].
  intros [= H]. apply outdir_injective in H. lia.
Qed.

Lemma loggers_never_share_a_directory_witness :
  Some "stbt-debug/match/00007" <> Some "stbt-debug/match/00008".
Proof.
  apply (loggers_never_share_a_directory Sample.verbose_world
           [Process.Create "match" []; Process.Create "match" []] 0%nat 1%nat
           (ImageLogger.mk true (Some "match") (Some 7)
              (Some "stbt-debug/match/00007") (Some []) (Some ∅) (Some ∅))
           (ImageLogger.mk true (Some "match") (Some 8)
              (Some "stbt-debug/match/00008") (Some []) (Some ∅) (Some ∅))
           ltac:(lia) eq_refl eq_refl eq_refl eq_refl).
Defined.

(** ** A logger created inside a scoped override *)

(** X17: [ImageLogger(...)] sees a scoped override: created inside
    [scoped_debug_level(level)] it is enabled exactly when [level] is 2 or
    more (and its directory can be made), whatever the level outside and
    whatever the configuration says; the level outside is back in place
    after the scope, while the logger keeps the flag it was created
    with. *)
Theorem logger_created_in_scope :
  forall (level : Z) (nm : string) (kwargs : list (string * value)) (w : World),
    let dir := os_path_join "stbt-debug" [nm; format_05d (_frame_number w)] in
    exists (s : ImageLogger.t) (w' : World),
      scoped_debug_level level (ImageLogger.__init__ nm kwargs) w = (Return s, w') /\
      _debug_level w' = _debug_level w /\
      ImageLogger.enabled s = (1 <? level) && mkdir_p_ok w dir /\
      (ImageLogger.enabled s = true -> ImageLogger.ready s = true) /\
      (level <= 1 -> w' = w).
Proof.
  intros level nm kwargs w dir.
  assert (H : get_debug_level (set_debug_level (Some level) w) =
              (Return level, set_debug_level (Some level) w)).
  { now apply get_debug_level_cached. }
  unfold scoped_debug_level, try_finally.
  destruct (Z.le_gt_cases level 1) as [Hl|Hl].
  - rewrite (init_level_low nm kwargs _ level _ H Hl).
    do 2 eexists. split; [reflexivity|]. split; [reflexivity|].
    destruct (Z.ltb_spec 1 level); [lia|]. cbn.
    split; [reflexivity|]. split; [discriminate|].
    intros _. destruct w; reflexivity.
  - destruct (Z.ltb_spec 1 level); [|lia].
    destruct (mkdir_p_ok w dir) eqn:Hm.
    + rewrite (init_enabled nm kwargs _ level _ H ltac:(lia) Hm).
      do 2 eexists. split; [reflexivity|]. split; [reflexivity|].
      split; [reflexivity|]. split; [reflexivity|]. lia.
    + rewrite (init_mkdir_failed nm kwargs _ level _ H ltac:(lia) Hm).
      do 2 eexists. split; [reflexivity|]. split; [reflexivity|].
      split; [reflexivity|]. split; [discriminate|]. lia.
Qed.

Lemma logger_created_in_scope_witness :
  exists (s : ImageLogger.t) (w' : World),
    scoped_debug_level 2 (ImageLogger.__init__ "match" []) Sample.fresh_world =
    (Return s, w') /\
    _debug_level w' = None /\
    ImageLogger.ready s = true.
Proof.
  destruct (logger_created_in_scope 2 "match" [] Sample.fresh_world)
    as (s & w' & H1 & H2 & H3 & H4 & _).
  exists s, w'. split; [exact H1|]. split; [exact H2|].
  apply H4. rewrite H3. reflexivity.
Defined.
